(** * Blue Carbon MRV registry: the validator, the estimators, the hash
      generator and the record store of [app.py] and [app1.py].

    Conventions of the embedding.
    - A Python [float] is idealised as an exact rational ([Q]); a float that
      can be NaN is an [option Q] with [None] for NaN, and every comparison
      with NaN is false, as in Python.
    - A standard deviation is carried by its square (the variance): [Q] has
      no square root.  [std > 0] is [0 < var], and for [std > 0] the test
      [abs((v - mean) / std) > 3] is [(v - mean)^2 > 9 * var].
    - An f-string message is a constructor of [Msg] that carries the values
      the f-string interpolates.
    - [uuid.uuid4()], [datetime.utcnow()] and [time.time()] are read from an
      explicit environment argument.
    - A Python [str] is a [string] holding its UTF-8 bytes. *)

From Stdlib Require Import ZArith QArith Qround Qabs List String Ascii Bool Lia Lra Psatz.
Import ListNotations.
Local Open Scope string_scope.
Local Open Scope list_scope.
Local Open Scope Z_scope.

(* ===================================================================== *)
(** ** SHA-256 ([hashlib.sha256(...).hexdigest()]), FIPS 180-4 *)
(* ===================================================================== *)

Module SHA256.

Definition w32 (x : Z) : Z := x mod 2 ^ 32.
Definition add32 (x y : Z) : Z := w32 (x + y).
Definition rotr (n x : Z) : Z := w32 (Z.lor (Z.shiftr x n) (Z.shiftl x (32 - n))).
Definition shr (n x : Z) : Z := Z.shiftr x n.
Definition not32 (x : Z) : Z := 2 ^ 32 - 1 - x.

Definition Ch (x y z : Z) : Z := Z.lxor (Z.land x y) (Z.land (not32 x) z).
Definition Maj (x y z : Z) : Z :=
  Z.lxor (Z.lxor (Z.land x y) (Z.land x z)) (Z.land y z).
Definition Sigma0 (x : Z) : Z := Z.lxor (Z.lxor (rotr 2 x) (rotr 13 x)) (rotr 22 x).
Definition Sigma1 (x : Z) : Z := Z.lxor (Z.lxor (rotr 6 x) (rotr 11 x)) (rotr 25 x).
Definition sigma0 (x : Z) : Z := Z.lxor (Z.lxor (rotr 7 x) (rotr 18 x)) (shr 3 x).
Definition sigma1 (x : Z) : Z := Z.lxor (Z.lxor (rotr 17 x) (rotr 19 x)) (shr 10 x).

(** The round constants (FIPS 180-4, 4.2.2): the first thirty-two bits of the
    fractional parts of the cube roots of the first sixty-four primes. *)
Definition is_prime (n : Z) : bool :=
  forallb (fun d => negb (n mod Z.of_nat d =? 0)) (seq 2 (Z.to_nat n - 2)).

Definition primes64 : list Z := filter is_prime (map Z.of_nat (seq 2 310)).

(** The integer cube root of [n], found bit by bit from bit [bits - 1] down. *)
Fixpoint cube_root (bits : nat) (n r : Z) : Z :=
  match bits with
  | O => r
  | S k =>
      let c := r + 2 ^ Z.of_nat k in
      cube_root k n (if c * c * c <=? n then c else r)
  end.

Definition K : list Z :=
  Eval vm_compute in map (fun p => w32 (cube_root 36 (p * 2 ^ 96) 0)) primes64.

(** The eight working words of the hash state. *)
Record state : Type := mkState {
  ha : Z; hb : Z; hc : Z; hd : Z; he : Z; hf : Z; hg : Z; hh : Z
}.

Definition H0 : state :=
  mkState 0x6a09e667 0xbb67ae85 0x3c6ef372 0xa54ff53a
          0x510e527f 0x9b05688c 0x1f83d9ab 0x5be0cd19.

(** Big-endian bytes of an [n]-byte integer. *)
Fixpoint be_bytes (n : nat) (x : Z) : list Z :=
  match n with
  | O => []
  | S k => (Z.shiftr x (8 * Z.of_nat k)) mod 256 :: be_bytes k x
  end.

Fixpoint be_word (bs : list Z) (acc : Z) : Z :=
  match bs with
  | [] => acc
  | b :: rest => be_word rest (acc * 256 + b)
  end.

(** Padding: a 1 bit, zeros up to 56 mod 64, the bit length on 8 bytes. *)
Definition pad (msg : list Z) : list Z :=
  let len := Z.of_nat (List.length msg) in
  let zeros := Z.to_nat ((55 - len) mod 64) in
  msg ++ [128] ++ repeat 0 zeros ++ be_bytes 8 (8 * len).

Fixpoint words_of (n : nat) (bs : list Z) : list Z :=
  match n with
  | O => []
  | S k => be_word (firstn 4 bs) 0 :: words_of k (skipn 4 bs)
  end.

(** The message schedule, extended from 16 to 64 words. *)
Fixpoint extend (n : nat) (w : list Z) : list Z :=
  match n with
  | O => w
  | S k =>
      let t := List.length w in
      let g (i : nat) := nth (t - i) w 0 in
      extend k (w ++ [w32 (sigma1 (g 2%nat) + g 7%nat + sigma0 (g 15%nat) + g 16%nat)])
  end.

Definition schedule (block : list Z) : list Z := extend 48 (words_of 16 block).

Definition round (s : state) (kw : Z * Z) : state :=
  let '(k, w) := kw in
  let t1 := w32 (hh s + Sigma1 (he s) + Ch (he s) (hf s) (hg s) + k + w) in
  let t2 := w32 (Sigma0 (ha s) + Maj (ha s) (hb s) (hc s)) in
  mkState (add32 t1 t2) (ha s) (hb s) (hc s) (add32 (hd s) t1) (he s) (hf s) (hg s).

Definition compress (s : state) (block : list Z) : state :=
  let r := fold_left round (combine K (schedule block)) s in
  mkState (add32 (ha s) (ha r)) (add32 (hb s) (hb r)) (add32 (hc s) (hc r))
          (add32 (hd s) (hd r)) (add32 (he s) (he r)) (add32 (hf s) (hf r))
          (add32 (hg s) (hg r)) (add32 (hh s) (hh r)).

Fixpoint blocks (n : nat) (s : state) (bs : list Z) : state :=
  match n with
  | O => s
  | S k =>
      match bs with
      | [] => s
      | _ => blocks k (compress s (firstn 64 bs)) (skipn 64 bs)
      end
  end.

Definition digest (msg : list Z) : state :=
  let p := pad msg in blocks (List.length p) H0 p.

Definition hex_digit (n : Z) : ascii :=
  match n with
  | 0 => "0" | 1 => "1" | 2 => "2" | 3 => "3" | 4 => "4" | 5 => "5"
  | 6 => "6" | 7 => "7" | 8 => "8" | 9 => "9" | 10 => "a" | 11 => "b"
  | 12 => "c" | 13 => "d" | 14 => "e" | _ => "f"
  end%char.

Definition nibble (w i : Z) : ascii := hex_digit ((Z.shiftr w (4 * i)) mod 16).

Definition hex8 (w : Z) (tail : string) : string :=
  String (nibble w 7) (String (nibble w 6) (String (nibble w 5) (String (nibble w 4)
  (String (nibble w 3) (String (nibble w 2) (String (nibble w 1) (String (nibble w 0)
   tail))))))).

Definition hex_of_state (s : state) : string :=
  hex8 (ha s) (hex8 (hb s) (hex8 (hc s) (hex8 (hd s)
  (hex8 (he s) (hex8 (hf s) (hex8 (hg s) (hex8 (hh s) EmptyString))))))).

Definition bytes_of_string (s : string) : list Z :=
  map (fun c => Z.of_N (N_of_ascii c)) (list_ascii_of_string s).

(** [hashlib.sha256(s.encode("utf-8")).hexdigest()] *)
Definition hexdigest (s : string) : string := hex_of_state (digest (bytes_of_string s)).

End SHA256.

(* ===================================================================== *)
(** ** Floats and the statistics of numpy and pandas *)
(* ===================================================================== *)

(** A float: [None] is NaN. *)
Definition float : Type := option Q.

Definition Qltb (x y : Q) : bool := negb (Qle_bool y x).

(** [x < c] and [x >= c] on floats: false when [x] is NaN. *)
Definition flt (x : float) (c : Q) : bool :=
  match x with Some v => Qltb v c | None => false end.
Definition fge (x : float) (c : Q) : bool :=
  match x with Some v => Qle_bool c v | None => false end.

(** Python's [max(a, b)] on floats: [b if b > a else a]. *)
Definition py_max (a b : float) : float :=
  match a, b with
  | Some x, Some y => if Qltb x y then b else a
  | _, _ => a
  end.

(** [int(x)]: truncation toward zero; raises on NaN. *)
Definition Qtrunc (q : Q) : Z := Z.quot (Qnum q) (Zpos (Qden q)).
Definition py_int (x : float) : option Z := option_map Qtrunc x.

Definition Qsum (l : list Q) : Q := fold_right Qplus 0%Q l.
Definition Qlen (l : list Q) : Q := inject_Z (Z.of_nat (List.length l)).
Definition Qmean (l : list Q) : Q := (Qsum l / Qlen l)%Q.
Definition sq_dev (m : Q) (l : list Q) : Q :=
  Qsum (map (fun v => ((v - m) * (v - m))%Q) l).

(** [numpy.var] (ddof = 0); NaN on an empty array. *)
Definition np_var (l : list Q) : float :=
  match l with
  | [] => None
  | _ => Some (sq_dev (Qmean l) l / Qlen l)%Q
  end.

(** [Series.mean()]: NaN on an empty series. *)
Definition pd_mean (l : list Q) : float :=
  match l with
  | [] => None
  | _ => Some (Qmean l)
  end.

(** The square of [Series.std()] (ddof = 1), on a series of two or more. *)
Definition pd_var (l : list Q) : Q := (sq_dev (Qmean l) l / (Qlen l - 1))%Q.

(** [Series.dropna()] *)
Fixpoint dropna (col : list (option Q)) : list Q :=
  match col with
  | [] => []
  | Some v :: rest => v :: dropna rest
  | None :: rest => dropna rest
  end.

(** [Series.nunique()] *)
Fixpoint nunique (l : list Q) : nat :=
  match l with
  | [] => 0
  | x :: rest => if existsb (Qeq_bool x) rest then nunique rest else S (nunique rest)
  end.

(** [round(x, 2)] on an exact value: to the nearest hundredth, ties to even. *)
Definition round_half_even (q : Q) : Z :=
  let f := Qfloor q in
  let r := (q - inject_Z f)%Q in
  if Qltb r (1 # 2) then f
  else if Qltb (1 # 2) r then f + 1
  else if Z.even f then f else f + 1.
Definition py_round2 (x : float) : float :=
  option_map (fun q => (inject_Z (round_half_even (q * 100)) / 100)%Q) x.

(* ===================================================================== *)
(** ** Data model: decoded artifacts and messages *)
(* ===================================================================== *)

(** A decoded image: [img.size] and the pixels of [img.convert("L")]. *)
Record Image : Type := mkImage {
  width : Z;
  height : Z;
  luma : list Z
}.

(** A cell of the [timestamp] column, by what [pd.to_datetime] makes of it:
    an instant (nanoseconds since the epoch), a missing value (NaT), or a
    cell on which the parser raises. *)
Inductive TsCell : Type :=
| TsAt (ns : Z)
| TsNaT
| TsBad.

(** A parsed CSV: the [value] column (a missing cell is [None]) and the
    [timestamp] column, each [None] when the column is absent. *)
Record DataFrame : Type := mkDataFrame {
  value : option (list (option Q));
  timestamp : option (list TsCell)
}.

(** The messages of the validators and the note of app1's upload. *)
Inductive Msg : Type :=
| MsgLowVariance (variance : float)
    (* "Low pixel variance ({variance:.1f}) ... could be manipulated/too uniform." *)
| MsgSmallImage (w h : Z)
    (* "Small image ({w}x{h}) ... may be insufficient resolution." *)
| MsgImageOK (variance : float)
    (* "Image passes basic checks (variance={variance:.1f})." *)
| MsgMissingValue
    (* "CSV missing required 'value' column." *)
| MsgNotEnough
    (* "Not enough IoT readings." *)
| MsgAnomalies (anomalies : Z)
    (* "{anomalies} statistical anomalies detected in sensor readings." *)
| MsgFlat
    (* "Suspiciously flat sensor data (too few unique values)." *)
| MsgIotOK (mean std2 : Q) (anomalies : Z)
    (* "IoT readings look OK (mean={mean:.2f}, std={std:.2f}, anomalies={anomalies})."
       with [std2] the square of [std] *)
| MsgVariance (variance : float)
    (* "variance={variance:.2f}" *)
| MsgText (s : string).



(* ===================================================================== *)
(** ** MRV checks ([app.py]) *)
(* ===================================================================== *)

(** [float(arr.var())] of [np.array(img.convert("L"), dtype=np.float32)] *)
Definition luminance_variance (img : Image) : float :=
  np_var (map inject_Z (luma img)).

Definition anomaly_detection_image (img : Image) : bool * Msg :=
  let variance := luminance_variance img in
  if flt variance 50 then (false, MsgLowVariance variance)
  else
    let w := width img in
    let h := height img in
    if w * h <? 10000 then (false, MsgSmallImage w h)
    else (true, MsgImageOK variance).

(** [abs(z) > 3] for [z = (v - mean) / (std if std > 0 else 1)]. *)
Definition abs_z_gt3 (mean std2 v : Q) : bool :=
  if Qltb 0 std2
  then Qltb (9 * std2) ((v - mean) * (v - mean))
  else Qltb 3 (Qabs ((v - mean) / 1)).

(** [(abs(zscores) > 3).sum()] *)
Definition count_anomalies (vals : list Q) : Z :=
  Z.of_nat (List.length (filter (abs_z_gt3 (Qmean vals) (pd_var vals)) vals)).

(** [max(1, len(vals)//10)] *)
Definition anomaly_budget (vals : list Q) : Z :=
  Z.max 1 (Z.of_nat (List.length vals) / 10).

Definition anomaly_detection_iot (df : DataFrame) : bool * Msg :=
  match value df with
  | None => (false, MsgMissingValue)
  | Some col =>
      let vals := dropna col in
      if (List.length vals <? 3)%nat then (false, MsgNotEnough)
      else
        let mean := Qmean vals in
        let std2 := pd_var vals in
        let anomalies := count_anomalies vals in
        if anomaly_budget vals <? anomalies then (false, MsgAnomalies anomalies)
        else if (nunique vals <=? 2)%nat then (false, MsgFlat)
        else (true, MsgIotOK mean std2 anomalies)
  end.

(* ===================================================================== *)
(** ** Credit calculations *)
(* ===================================================================== *)

(** [app.py]: [max(1, int((w*h / 200000.0) * 10))] *)
Definition calculate_credits_image (img : Image) : Z :=
  let base := (inject_Z (width img * height img) / 200000)%Q in
  Z.max 1 (Qtrunc (base * 10)).

(** [pd.to_datetime(col)]: raises ([None]) when a cell does not parse. *)
Fixpoint to_datetime (col : list TsCell) : option (list (option Z)) :=
  match col with
  | [] => Some []
  | TsBad :: _ => None
  | TsAt ns :: rest => option_map (cons (Some ns)) (to_datetime rest)
  | TsNaT :: rest => option_map (cons None) (to_datetime rest)
  end.

(** [Series.max()] and [Series.min()] of a datetime series skip NaT and
    are NaT when nothing is left. *)
Fixpoint ts_max (ts : list (option Z)) : option Z :=
  match ts with
  | [] => None
  | None :: rest => ts_max rest
  | Some t :: rest =>
      match ts_max rest with Some m => Some (Z.max t m) | None => Some t end
  end.
Fixpoint ts_min (ts : list (option Z)) : option Z :=
  match ts with
  | [] => None
  | None :: rest => ts_min rest
  | Some t :: rest =>
      match ts_min rest with Some m => Some (Z.min t m) | None => Some t end
  end.

(** [(max - min).total_seconds() / 3600.0]; NaN when the difference is NaT. *)
Definition span_hours (ts : list (option Z)) : float :=
  match ts_max ts, ts_min ts with
  | Some hi, Some lo => Some (inject_Z (hi - lo) / 1000000000 / 3600)%Q
  | _, _ => None
  end.

(** The [duration_hours] of [calculate_credits_iot]. *)
Definition duration_hours (df : DataFrame) : float :=
  match timestamp df with
  | Some col =>
      match to_datetime col with
      | Some ts => py_max (span_hours ts) (Some 1%Q)
      | None => Some 1%Q
      end
  | None => Some 1%Q
  end.

Definition fmul (a b : float) : float :=
  match a, b with Some x, Some y => Some (x * y)%Q | _, _ => None end.

(** [None] when the function raises: no [value] column ([KeyError]) or a
    NaN passed to [int] ([ValueError]). *)
Definition calculate_credits_iot (df : DataFrame) : option Z :=
  let duration_hours := duration_hours df in
  match value df with
  | None => None
  | Some col =>
      let avg_val := pd_mean (dropna col) in
      match py_int (option_map (fun p => (p / 10)%Q) (fmul avg_val duration_hours)) with
      | Some n => Some (Z.max 1 n)
      | None => None
      end
  end.

(** [app1.py]: [(round(variance / 100.0, 2), variance)] of the decoded image. *)
Definition calculate_carbon_credits (img : Image) : float * float :=
  let variance := luminance_variance img in
  let credits := py_round2 (option_map (fun v => (v / 100)%Q) variance) in
  (credits, variance).

(* ===================================================================== *)
(** ** Effects: store state, a log of calls and UI output, early exit *)
(* ===================================================================== *)

(** How a handler ends: normally, at [st.stop()], or on an exception that
    nothing catches. *)
Inductive outcome (A : Type) : Type :=
| Done (a : A)
| Stopped
| Raised.
Arguments Done {A} a.
Arguments Stopped {A}.
Arguments Raised {A}.

Section Handler.
Context {S E : Type}.

(** A computation over the store [S] that logs events [E]. *)
Definition M (A : Type) : Type := S -> outcome A * S * list E.

Definition ret {A} (a : A) : M A := fun s => (Done a, s, []).

Definition bind {A B} (m : M A) (f : A -> M B) : M B :=
  fun s =>
    match m s with
    | (Done a, s1, l1) =>
        match f a s1 with (r, s2, l2) => (r, s2, l1 ++ l2) end
    | (Stopped, s1, l1) => (Stopped, s1, l1)
    | (Raised, s1, l1) => (Raised, s1, l1)
    end.

Definition emit (e : E) : M unit := fun s => (Done tt, s, [e]).
(** A loop that logs one event per element. *)
Definition emit_all (es : list E) : M unit := fun s => (Done tt, s, es).
Definition stop {A} : M A := fun s => (Stopped, s, []).
Definition raise {A} : M A := fun s => (Raised, s, []).
Definition get : M S := fun s => (Done s, s, []).
Definition put (s : S) : M unit := fun _ => (Done tt, s, []).
End Handler.

Declare Scope handler_scope.
Delimit Scope handler_scope with handler.
Notation "x <- m ;; k" := (bind m (fun x => k))
  (at level 61, m at next level, right associativity) : handler_scope.
Notation "m ;; k" := (bind m (fun _ => k))
  (at level 61, right associativity) : handler_scope.

Definition final_state {S E A} (r : outcome A * S * list E) : S := snd (fst r).
Definition trace {S E A} (r : outcome A * S * list E) : list E := snd r.
Definition result {S E A} (r : outcome A * S * list E) : outcome A := fst (fst r).

(** What a handler reads from the outside world in one run. *)
Record Env : Type := mkEnv {
  uuid4 : string;        (* str(uuid.uuid4()) *)
  utcnow : string;       (* datetime.utcnow().isoformat() *)
  time_time : string     (* the text of time.time() in an f-string *)
}.

(** [str.lower] on ASCII letters and [str.endswith]. *)
Definition lower_ascii (c : ascii) : ascii :=
  let n := nat_of_ascii c in
  if andb (65 <=? n)%nat (n <=? 90)%nat then ascii_of_nat (n + 32) else c.
Fixpoint lower (s : string) : string :=
  match s with
  | EmptyString => EmptyString
  | String c rest => String (lower_ascii c) (lower rest)
  end.
Definition endswith (s suffix : string) : bool :=
  let n := String.length s in
  let k := String.length suffix in
  andb (k <=? n)%nat (String.eqb (substring (n - k) k s) suffix).

(** [ORDER BY key DESC] *)
Section OrderBy.
Context {A : Type} (key : A -> Z).
Fixpoint insert_desc (r : A) (l : list A) : list A :=
  match l with
  | [] => [r]
  | x :: rest => if key x <=? key r then r :: l else x :: insert_desc r rest
  end.
Definition order_by_desc (l : list A) : list A := fold_right insert_desc [] l.
End OrderBy.

(** A set ledger hash: neither NULL nor the empty string. *)
Definition hash_unset (tx : option string) : bool :=
  match tx with
  | None => true
  | Some s => String.eqb s ""
  end.
Definition hash_set (tx : option string) : bool := negb (hash_unset tx).

(* ===================================================================== *)
(** ** [app.py]: the registry table, the two button handlers *)
(* ===================================================================== *)

Module App.

Local Open Scope handler_scope.

(** A row of [registry]. *)
Record Row : Type := mkRow {
  id : Z;
  record_uuid : string;
  created_at : string;
  project_name : string;
  data_type : string;
  credits : Z;
  mrv_status : string;
  mrv_msg : Msg;
  tx_hash : option string
}.

(** The database: the rows in insertion order and the AUTOINCREMENT
    counter (the largest id handed out so far). *)
Record Conn : Type := mkConn {
  registry : list Row;
  seq : Z
}.

Definition init_db : Conn := mkConn [] 0.

Inductive Event : Type :=
| Call_anomaly_detection_iot (df : DataFrame) (ok : bool)
| Call_anomaly_detection_image (img : Image) (ok : bool)
| Call_calculate_credits_iot (df : DataFrame)
| Call_calculate_credits_image (img : Image)
| Call_save_record (status : string)
| Call_simulate_tx_hash (rec_uuid : string)
| St_warning_upload_first
| St_info_processing_csv
| St_error_parse_csv
| St_error_open_image
| St_image
| St_write (m : Msg)
| St_write_saved (rec_uuid : string)
| St_success_verified (credits : Z)
| St_error_rejected
| St_info_no_record
| St_success_issued (tx : string).

Definition H := @M Conn Event.

(** [INSERT INTO registry (...) VALUES (...)], then [return record_uuid]. *)
Definition save_record (env : Env) (project_name data_type : string) (credits : Z)
    (mrv_status : string) (mrv_msg : Msg) (tx_hash : option string) : H string :=
  let record_uuid := uuid4 env in
  let created_at := utcnow env in
  emit (Call_save_record mrv_status) ;;
  conn <- get ;;
  let new_id := seq conn + 1 in
  put (mkConn (registry conn
               ++ [mkRow new_id record_uuid created_at project_name data_type
                         credits mrv_status mrv_msg tx_hash])
              new_id) ;;
  ret record_uuid.

(** [SELECT * FROM registry ORDER BY id DESC] *)
Definition fetch_registry (conn : Conn) : list Row := order_by_desc id (registry conn).

(** [hashlib.sha256(f"{record_uuid}|{time.time()}".encode()).hexdigest()] *)
Definition simulate_tx_hash (env : Env) (record_uuid : string) : string :=
  let payload := (record_uuid ++ "|" ++ time_time env)%string in
  SHA256.hexdigest payload.

(** The uploaded file: its name, and what [pd.read_csv] and
    [Image.open(...).convert("RGB")] make of its bytes ([None]: they raise). *)
Record UploadedFile : Type := mkUpload {
  name : string;
  read_csv : option DataFrame;
  image_open : option Image
}.

Definition call_anomaly_detection_iot (df : DataFrame) : H (bool * Msg) :=
  let r := anomaly_detection_iot df in
  emit (Call_anomaly_detection_iot df (fst r)) ;; ret r.

Definition call_anomaly_detection_image (img : Image) : H (bool * Msg) :=
  let r := anomaly_detection_image img in
  emit (Call_anomaly_detection_image img (fst r)) ;; ret r.

Definition call_calculate_credits_iot (df : DataFrame) : H Z :=
  emit (Call_calculate_credits_iot df) ;;
  match calculate_credits_iot df with
  | Some n => ret n
  | None => raise
  end.

Definition call_calculate_credits_image (img : Image) : H Z :=
  emit (Call_calculate_credits_image img) ;; ret (calculate_credits_image img).

(** The body of [if run_btn:]. *)
Definition verify_and_calculate (env : Env) (project_name : string)
    (uploaded_file : option UploadedFile) : H unit :=
  match uploaded_file with
  | None => emit St_warning_upload_first
  | Some f =>
      let filename := lower (name f) in
      if endswith filename ".csv" then
        emit St_info_processing_csv ;;
        df <- match read_csv f with
              | Some df => ret df
              | None => emit St_error_parse_csv ;; stop
              end ;;
        r <- call_anomaly_detection_iot df ;;
        let '(ok, msg) := r in
        emit (St_write msg) ;;
        if ok then
          credits <- call_calculate_credits_iot df ;;
          let tx := None in
          emit (St_success_verified credits) ;;
          rec_uuid <- save_record env project_name "iot_csv" credits "verified" msg tx ;;
          emit (St_write_saved rec_uuid)
        else
          let credits := 0 in
          rec_uuid <- save_record env project_name "iot_csv" credits "rejected" msg None ;;
          emit St_error_rejected
      else
        img <- match image_open f with
               | Some img => ret img
               | None => emit St_error_open_image ;; stop
               end ;;
        emit St_image ;;
        r <- call_anomaly_detection_image img ;;
        let '(ok, msg) := r in
        emit (St_write msg) ;;
        if ok then
          credits <- call_calculate_credits_image img ;;
          rec_uuid <- save_record env project_name "image" credits "verified" msg None ;;
          emit (St_success_verified credits) ;;
          emit (St_write_saved rec_uuid)
        else
          let credits := 0 in
          rec_uuid <- save_record env project_name "image" credits "rejected" msg None ;;
          emit St_error_rejected
  end.

(** [WHERE mrv_status='verified' AND (tx_hash IS NULL OR tx_hash='')] *)
Definition unissued_verified (r : Row) : bool :=
  andb (String.eqb (mrv_status r) "verified") (hash_unset (tx_hash r)).

(** [ORDER BY id DESC LIMIT 1]: the row of largest id, if any. *)
Fixpoint latest (rows : list Row) : option Row :=
  match rows with
  | [] => None
  | r :: rest =>
      match latest rest with
      | Some m => if id m <? id r then Some r else Some m
      | None => Some r
      end
  end.

(** [SELECT id, record_uuid FROM registry WHERE ... ORDER BY id DESC LIMIT 1] *)
Definition select_latest_unissued (conn : Conn) : option (Z * string) :=
  option_map (fun r => (id r, record_uuid r))
             (latest (filter unissued_verified (registry conn))).

(** [UPDATE registry SET tx_hash=? WHERE id=?] *)
Definition set_tx_hash (tx : string) (rec_id : Z) (r : Row) : Row :=
  if id r =? rec_id
  then mkRow (id r) (record_uuid r) (created_at r) (project_name r) (data_type r)
             (credits r) (mrv_status r) (mrv_msg r) (Some tx)
  else r.
Definition update_tx_hash (tx : string) (rec_id : Z) : H unit :=
  conn <- get ;;
  put (mkConn (map (set_tx_hash tx rec_id) (registry conn)) (seq conn)).

(** The body of the "Issue simulated tx" button. *)
Definition issue_simulated_tx (env : Env) : H unit :=
  conn <- get ;;
  match select_latest_unissued conn with
  | None => emit St_info_no_record
  | Some (rec_id, rec_uuid) =>
      emit (Call_simulate_tx_hash rec_uuid) ;;
      let tx_hash := simulate_tx_hash env rec_uuid in
      update_tx_hash tx_hash rec_id ;;
      emit (St_success_issued tx_hash)
  end.

(** One user action on the page. *)
Inductive Action : Type :=
| VerifyAndCalculate (env : Env) (project_name : string) (uploaded_file : option UploadedFile)
| IssueSimulatedTx (env : Env).

Definition run (a : Action) : H unit :=
  match a with
  | VerifyAndCalculate env p f => verify_and_calculate env p f
  | IssueSimulatedTx env => issue_simulated_tx env
  end.

Definition step (conn : Conn) (a : Action) : Conn := final_state (run a conn).

(** The stores the application can be in. *)
Inductive reachable : Conn -> Prop :=
| reach_init : reachable init_db
| reach_step conn a : reachable conn -> reachable (step conn a).

(** The rows an action adds to the table. *)
Definition added (before after : Conn) : list Row :=
  skipn (List.length (registry before)) (registry after).

(** [e1] is logged, and [e2] is logged only after it. *)
Fixpoint precedes (p1 p2 : Event -> bool) (l : list Event) : bool :=
  match l with
  | [] => true
  | e :: rest =>
      if p1 e then true
      else if p2 e then false
      else precedes p1 p2 rest
  end.

Definition is_validator_pass (e : Event) : bool :=
  match e with
  | Call_anomaly_detection_iot _ ok => ok
  | Call_anomaly_detection_image _ ok => ok
  | _ => false
  end.
Definition is_validator_call (e : Event) : bool :=
  match e with
  | Call_anomaly_detection_iot _ _ => true
  | Call_anomaly_detection_image _ _ => true
  | _ => false
  end.
Definition is_estimator_call (e : Event) : bool :=
  match e with
  | Call_calculate_credits_iot _ => true
  | Call_calculate_credits_image _ => true
  | _ => false
  end.
Definition is_save_verified (e : Event) : bool :=
  match e with
  | Call_save_record s => String.eqb s "verified"
  | _ => false
  end.

End App.

(* ===================================================================== *)
(** ** [app1.py]: projects, credits and complaints *)
(* ===================================================================== *)

Module App1.

Local Open Scope handler_scope.

Record Project : Type := mkProject {
  p_id : Z;
  p_uuid : string;
  p_name : string;
  p_location : string;
  p_description : string;
  p_created_at : string;
  p_tx_hash : option string
}.

Record Credit : Type := mkCredit {
  c_id : Z;
  c_uuid : string;
  c_project_id : Z;
  c_data_type : string;
  c_credits : float;
  c_status : string;
  c_notes : Msg;
  c_timestamp : string;
  c_tx_hash : option string
}.

Record Complaint : Type := mkComplaint {
  m_id : Z;
  m_uuid : string;
  m_project_id : Z;
  m_complaint : string;
  m_status : string;
  m_created_at : string;
  m_tx_hash : option string
}.

(** The three tables in insertion order, each with its AUTOINCREMENT counter. *)
Record Conn : Type := mkConn {
  projects : list Project;
  credits : list Credit;
  complaints : list Complaint;
  seq_projects : Z;
  seq_credits : Z;
  seq_complaints : Z
}.

Definition init_db : Conn := mkConn [] [] [] 0 0 0.

Inductive Event : Type :=
| Call_add_project
| Call_add_credit (status : string)
| Call_add_complaint
| Call_calculate_carbon_credits (img : Image)
| Call_simulate_tx_hash (seed : string)
| St_success_project (name tx : string)
| St_success_credit (tx : string)
| St_success_complaint (tx : string)
| St_warning_no_projects
| St_image
| St_write_variance (variance : float)
| St_write_credits (credits : float)
| St_write_project (row : Project)
| St_write_credit (row : Credit)
| St_write_complaint (row : Complaint)
| St_info_no_credits
| St_info_no_complaints.

Definition H := @M Conn Event.

(** [hashlib.sha256(seed.encode("utf-8")).hexdigest()] *)
Definition simulate_tx_hash (seed : string) : string := SHA256.hexdigest seed.

Definition call_simulate_tx_hash (seed : string) : H string :=
  emit (Call_simulate_tx_hash seed) ;; ret (simulate_tx_hash seed).

Section WithFloatStr.

(** Python's [str] on a float. *)
Variable str_float : float -> string.

(** [uuid TEXT UNIQUE]: the insert raises when the uuid is already there. *)
Definition add_project (env : Env) (name location description : string)
    : H (string * string) :=
  emit Call_add_project ;;
  let uid := uuid4 env in
  let created_at := utcnow env in
  tx <- call_simulate_tx_hash (uid ++ created_at)%string ;;
  conn <- get ;;
  if existsb (fun p => String.eqb (p_uuid p) uid) (projects conn) then raise
  else
    let new_id := seq_projects conn + 1 in
    put (mkConn (projects conn
                 ++ [mkProject new_id uid name location description created_at (Some tx)])
                (credits conn) (complaints conn)
                new_id (seq_credits conn) (seq_complaints conn)) ;;
    ret (uid, tx).

Definition add_credit (env : Env) (project_id : Z) (data_type : string)
    (credits0 : float) (status : string) (notes : Msg) : H (string * string) :=
  emit (Call_add_credit status) ;;
  let uid := uuid4 env in
  let ts := utcnow env in
  tx <- call_simulate_tx_hash (uid ++ str_float credits0 ++ ts)%string ;;
  conn <- get ;;
  if existsb (fun c => String.eqb (c_uuid c) uid) (credits conn) then raise
  else
    let new_id := seq_credits conn + 1 in
    put (mkConn (projects conn)
                (credits conn
                 ++ [mkCredit new_id uid project_id data_type credits0 status notes ts (Some tx)])
                (complaints conn)
                (seq_projects conn) new_id (seq_complaints conn)) ;;
    ret (uid, tx).

Definition add_complaint (env : Env) (project_id : Z) (complaint : string)
    : H (string * string) :=
  emit Call_add_complaint ;;
  let uid := uuid4 env in
  let ts := utcnow env in
  tx <- call_simulate_tx_hash (uid ++ complaint ++ ts)%string ;;
  conn <- get ;;
  if existsb (fun m => String.eqb (m_uuid m) uid) (complaints conn) then raise
  else
    let new_id := seq_complaints conn + 1 in
    put (mkConn (projects conn) (credits conn)
                (complaints conn
                 ++ [mkComplaint new_id uid project_id complaint "pending" ts (Some tx)])
                (seq_projects conn) (seq_credits conn) new_id) ;;
    ret (uid, tx).

Definition list_projects : H (list Project) :=
  conn <- get ;; ret (order_by_desc p_id (projects conn)).
Definition list_credits : H (list Credit) :=
  conn <- get ;; ret (order_by_desc c_id (credits conn)).
Definition list_complaints : H (list Complaint) :=
  conn <- get ;; ret (order_by_desc m_id (complaints conn)).

Definition nonempty (s : string) : bool := negb (String.eqb s "").

(** The sidebar choice with the inputs of its page.  An uploaded file is
    given by what [Image.open(...).convert("L")] makes of its bytes
    ([None]: it raises). *)
Inductive Page : Type :=
| ProjectRegistry (name location desc : string) (submit : bool)
| UploadDataVerify (selected : Z) (uploaded_file : option (option Image))
| CarbonCreditRegistry
| ComplaintRegistry (selected : Z) (complaint_text : string) (submit : bool).

Definition call_calculate_carbon_credits (decoded : option Image) : H (float * float) :=
  match decoded with
  | Some img => emit (Call_calculate_carbon_credits img) ;; ret (calculate_carbon_credits img)
  | None => raise
  end.

(** One run of [run_streamlit_app]. *)
Definition run_streamlit_app (env : Env) (choice : Page) : H unit :=
  match choice with
  | ProjectRegistry name location desc submit =>
      (if andb submit (nonempty name) then
         r <- add_project env name location desc ;;
         emit (St_success_project name (snd r))
       else ret tt) ;;
      ps <- list_projects ;;
      emit_all (map St_write_project ps)
  | UploadDataVerify selected uploaded_file =>
      ps <- list_projects ;;
      match ps with
      | [] => emit St_warning_no_projects
      | _ =>
          match uploaded_file with
          | Some decoded =>
              r <- call_calculate_carbon_credits decoded ;;
              let '(credits0, variance) := r in
              emit St_image ;;
              emit (St_write_variance variance) ;;
              emit (St_write_credits credits0) ;;
              a <- add_credit env selected "image" credits0 "verified" (MsgVariance variance) ;;
              emit (St_success_credit (snd a))
          | None => ret tt
          end
      end
  | CarbonCreditRegistry =>
      cs <- list_credits ;;
      match cs with
      | [] => emit St_info_no_credits
      | _ => emit_all (map St_write_credit cs)
      end
  | ComplaintRegistry selected complaint_text submit =>
      ps <- list_projects ;;
      match ps with
      | [] => ret tt
      | _ =>
          if andb submit (nonempty complaint_text) then
            r <- add_complaint env selected complaint_text ;;
            emit (St_success_complaint (snd r))
          else ret tt
      end ;;
      ms <- list_complaints ;;
      match ms with
      | [] => emit St_info_no_complaints
      | _ => emit_all (map St_write_complaint ms)
      end
  end.

End WithFloatStr.

End App1.

(* ===================================================================== *)
(** ** Concrete artifacts *)
(* ===================================================================== *)

(** 200x200 uniform gray: variance 0. *)
Definition img_gray : Image := mkImage 200 200 (repeat 128 (Z.to_nat 40000)).
(** 50x50, black and white halves. *)
Definition img_small : Image := mkImage 50 50 (repeat 0 1250 ++ repeat 255 1250).






(** Thirty readings that cycle through 9, 10, 11. *)
Definition tight30 : list Q := map inject_Z (List.concat (repeat [9; 10; 11] 10)).
Definition df_tight : DataFrame := mkDataFrame (Some (map Some tight30)) None.


(** Four equal readings and a missing one. *)
Definition df_flat : DataFrame :=
  mkDataFrame (Some [Some 5%Q; None; Some 5%Q; Some 5%Q; Some 5%Q]) None.

(** [fillna(0)]: what the validator does not do. *)
Definition fillna0 (col : list (option Q)) : list (option Q) :=
  map (fun c => match c with Some v => Some v | None => Some 0%Q end) col.
Definition df_gaps : DataFrame :=
  mkDataFrame (Some [Some 1%Q; Some 2%Q; None; Some 1%Q; Some 2%Q]) None.
Definition df_gaps_filled : DataFrame :=
  mkDataFrame (option_map fillna0 (value df_gaps)) None.

(** The hexadecimal digits of [hexdigest]. *)
Definition is_hex (c : ascii) : bool :=
  existsb (Ascii.eqb c) (list_ascii_of_string "0123456789abcdef").

(** Two clock readings and one record identifier. *)
Definition env_t1 : Env := mkEnv "0b0e7a3c-5d1f-4c8e-9a57-2f6d1c3b4a10" "2024-05-01T10:00:00.000000" "1714557600.25".
Definition env_t2 : Env := mkEnv "7c9e6679-7425-40de-944b-e07fc1f90ae7" "2024-05-01T10:00:01.500000" "1714557601.75".

(* ===================================================================== *)
(** ** Vocabulary of the statements *)
(* ===================================================================== *)



(** The array of [img.convert("L")] has [width * height] entries. *)
Definition wf_image (img : Image) : Prop :=
  Z.of_nat (List.length (luma img)) = width img * height img.

(** A concrete list is not empty, by its length. *)
Ltac nonempty :=
  let H := fresh in
  intro H; apply (f_equal (fun l => Z.of_nat (List.length l))) in H;
  vm_compute in H; discriminate H.

(* ===================================================================== *)
(** ** [app.py]: the runs of the two handlers, as relations *)
(* ===================================================================== *)

Import App.

Definition new_row (conn : Conn) (env : Env) (p dt : string) (n : Z) (status : string)
    (msg : Msg) : Row :=
  mkRow (seq conn + 1) (uuid4 env) (utcnow env) p dt n status msg None.

Definition with_row (conn : Conn) (r : Row) : Conn :=
  mkConn (registry conn ++ [r]) (seq conn + 1).

(** Distinct ids, none above the AUTOINCREMENT counter. *)
Definition wf_conn (conn : Conn) : Prop :=
  NoDup (map id (registry conn))
  /\ Forall (fun r => id r <= seq conn) (registry conn).

(** The runs of [verify_and_calculate], branch by branch: the upload, and
    the outcome, final store and log of the run. *)
Inductive verify_run (env : Env) (p : string) (conn : Conn)
  : option UploadedFile -> outcome unit * Conn * list Event -> Prop :=
| run_no_file :
    verify_run env p conn None (Done tt, conn, [St_warning_upload_first])
| run_csv_unparsed file :
    endswith (lower (name file)) ".csv" = true ->
    read_csv file = None ->
    verify_run env p conn (Some file)
      (Stopped, conn, [St_info_processing_csv; St_error_parse_csv])
| run_iot_verified file df msg n :
    endswith (lower (name file)) ".csv" = true ->
    read_csv file = Some df ->
    anomaly_detection_iot df = (true, msg) ->
    calculate_credits_iot df = Some n ->
    verify_run env p conn (Some file)
      (Done tt, with_row conn (new_row conn env p "iot_csv" n "verified" msg),
       [St_info_processing_csv; Call_anomaly_detection_iot df true; St_write msg;
        Call_calculate_credits_iot df; St_success_verified n;
        Call_save_record "verified"; St_write_saved (uuid4 env)])
| run_iot_raises file df msg :
    endswith (lower (name file)) ".csv" = true ->
    read_csv file = Some df ->
    anomaly_detection_iot df = (true, msg) ->
    calculate_credits_iot df = None ->
    verify_run env p conn (Some file)
      (Raised, conn,
       [St_info_processing_csv; Call_anomaly_detection_iot df true; St_write msg;
        Call_calculate_credits_iot df])
| run_iot_rejected file df msg :
    endswith (lower (name file)) ".csv" = true ->
    read_csv file = Some df ->
    anomaly_detection_iot df = (false, msg) ->
    verify_run env p conn (Some file)
      (Done tt, with_row conn (new_row conn env p "iot_csv" 0 "rejected" msg),
       [St_info_processing_csv; Call_anomaly_detection_iot df false; St_write msg;
        Call_save_record "rejected"; St_error_rejected])
| run_image_unopened file :
    endswith (lower (name file)) ".csv" = false ->
    image_open file = None ->
    verify_run env p conn (Some file) (Stopped, conn, [St_error_open_image])
| run_image_verified file img msg :
    endswith (lower (name file)) ".csv" = false ->
    image_open file = Some img ->
    anomaly_detection_image img = (true, msg) ->
    verify_run env p conn (Some file)
      (Done tt,
       with_row conn (new_row conn env p "image" (calculate_credits_image img) "verified" msg),
       [St_image; Call_anomaly_detection_image img true; St_write msg;
        Call_calculate_credits_image img; Call_save_record "verified";
        St_success_verified (calculate_credits_image img); St_write_saved (uuid4 env)])
| run_image_rejected file img msg :
    endswith (lower (name file)) ".csv" = false ->
    image_open file = Some img ->
    anomaly_detection_image img = (false, msg) ->
    verify_run env p conn (Some file)
      (Done tt, with_row conn (new_row conn env p "image" 0 "rejected" msg),
       [St_image; Call_anomaly_detection_image img false; St_write msg;
        Call_save_record "rejected"; St_error_rejected]).

(** The runs of [issue_simulated_tx]. *)
Inductive issue_run (env : Env) (conn : Conn)
  : outcome unit * Conn * list Event -> Prop :=
| run_issue_nothing :
    select_latest_unissued conn = None ->
    issue_run env conn (Done tt, conn, [St_info_no_record])
| run_issue_some rec_id rec_uuid :
    select_latest_unissued conn = Some (rec_id, rec_uuid) ->
    issue_run env conn
      (Done tt,
       mkConn (map (set_tx_hash (simulate_tx_hash env rec_uuid) rec_id) (registry conn))
              (seq conn),
       [Call_simulate_tx_hash rec_uuid;
        St_success_issued (simulate_tx_hash env rec_uuid)]).

(** A sequence of user actions. *)
Definition steps (conn : Conn) (actions : list Action) : Conn :=
  fold_left step actions conn.

Ltac run_handler :=
  cbv [verify_and_calculate issue_simulated_tx update_tx_hash save_record
       call_anomaly_detection_iot call_anomaly_detection_image
       call_calculate_credits_iot call_calculate_credits_image
       bind emit ret stop raise get put fst snd app].

(* ===================================================================== *)
(** ** Concrete uploads and stores *)
(* ===================================================================== *)

Definition digit_char (d : Z) : ascii := ascii_of_nat (48 + Z.to_nat d).

Fixpoint digits_fuel (fuel : nat) (n : Z) (acc : string) : string :=
  match fuel with
  | O => acc
  | S k =>
      let acc' := String (digit_char (n mod 10)) acc in
      if n / 10 =? 0 then acc' else digits_fuel k (n / 10) acc'
  end.

(** The decimal digits of a natural number. *)
Definition str_nat (n : Z) : string := digits_fuel (S (Z.to_nat (Z.log2 n))) n "".

(** Python's [str] on a float that is a whole number of hundredths, as
    [round(_, 2)] returns them, and below 1e16 in magnitude: the integer
    part, a point, and one or two decimals. *)
Definition str_float_2dp (x : float) : string :=
  match x with
  | None => "nan"
  | Some q =>
      let h := round_half_even (q * 100) in
      let a := Z.abs h in
      let frac :=
        if a mod 10 =? 0 then String (digit_char (a / 10 mod 10)) ""
        else String (digit_char (a / 10 mod 10)) (String (digit_char (a mod 10)) "") in
      let sign := if (h <? 0)%Z then "-" else "" in
      (sign ++ str_nat (a / 100) ++ "." ++ frac)%string
  end.

(** 4x4 uniform gray. *)
Definition img_uniform : Image := mkImage 4 4 (repeat 128 16).

Definition upload_tight : UploadedFile := mkUpload "readings.csv" (Some df_tight) None.
Definition upload_flat : UploadedFile := mkUpload "FLAT.CSV" (Some df_flat) None.
Definition upload_uniform : UploadedFile := mkUpload "gray.png" None (Some img_uniform).

(** [app.py] after a verified and a rejected upload, and after the issue
    button was then pressed. *)
Definition conn_demo : Conn :=
  steps init_db
    [VerifyAndCalculate env_t1 "Demo Mangrove Project" (Some upload_tight);
     VerifyAndCalculate env_t2 "Demo Mangrove Project" (Some upload_flat)].
Definition conn_issued : Conn := step conn_demo (IssueSimulatedTx env_t2).

(** [app1.py] after the registration of one project. *)
Definition conn1_demo : App1.Conn :=
  final_state
    (App1.run_streamlit_app str_float_2dp env_t1
       (App1.ProjectRegistry "Demo Mangrove" "10.0,20.0" "Demo project" true)
       App1.init_db).

Ltac run_app1 :=
  cbv [App1.run_streamlit_app App1.list_projects App1.list_credits App1.list_complaints
       App1.call_calculate_carbon_credits App1.add_credit App1.add_project
       App1.add_complaint App1.call_simulate_tx_hash
       bind emit emit_all ret stop raise get put fst snd app].

(** The verified row of [conn_demo], once issued. *)
Definition row_issued : Row :=
  mkRow 1 (uuid4 env_t1) (utcnow env_t1) "Demo Mangrove Project" "iot_csv" 1 "verified"
        (snd (anomaly_detection_iot df_tight))
        (Some (simulate_tx_hash env_t2 (uuid4 env_t1))).

(** [msg] is the reason with which a validator fails on some artifact. *)
Definition validator_failure (msg : Msg) : Prop :=
  (exists df, anomaly_detection_iot df = (false, msg))
  \/ (exists img, anomaly_detection_image img = (false, msg)).

(** A rejected row holds no credits and the validator's reason. *)
Definition rejected_ok (r : Row) : Prop :=
  mrv_status r = "rejected" -> credits r = 0 /\ validator_failure (mrv_msg r).

(* ===================================================================== *)
(** ** Further concrete artifacts *)
(* ===================================================================== *)


(* ===================================================================== *)
(** ** Vocabulary of the further statements *)
(* ===================================================================== *)

From Stdlib Require Import Permutation Sorted.

(** A row of [registry] with its ledger hash blanked: everything the issue
    handler never writes. *)
Definition without_hash (r : Row) : Row :=
  mkRow (id r) (record_uuid r) (created_at r) (project_name r) (data_type r)
        (credits r) (mrv_status r) (mrv_msg r) None.

(** The rows the issue handler can still select. *)
Definition pending (conn : Conn) : list Row :=
  filter unissued_verified (registry conn).

(** [key] does not increase along the list. *)
Definition sorted_desc {A} (key : A -> Z) (l : list A) : Prop :=
  Sorted (fun a b => key b <= key a) l.

(** The status, the quantity and the kind of a row agree: a verified row
    holds at least one credit, a rejected row none, and the kind is one of
    the two upload kinds. *)
Definition row_consistent (r : Row) : Prop :=
  ((mrv_status r = "verified" /\ 1 <= credits r)
   \/ (mrv_status r = "rejected" /\ credits r = 0))
  /\ (data_type r = "iot_csv" \/ data_type r = "image").

(* ===================================================================== *)
(** ** [app1.py]: lookups, rows and reachable stores *)
(* ===================================================================== *)

(** [SELECT ... FROM projects WHERE uuid=?] with [fetchone()], as the unit
    tests and [cli_demo] issue it; likewise for the other two tables. *)
Definition select_project_by_uuid (conn : App1.Conn) (uid : string) : option App1.Project :=
  find (fun r => String.eqb (App1.p_uuid r) uid) (App1.projects conn).
Definition select_credit_by_uuid (conn : App1.Conn) (uid : string) : option App1.Credit :=
  find (fun r => String.eqb (App1.c_uuid r) uid) (App1.credits conn).
Definition select_complaint_by_uuid (conn : App1.Conn) (uid : string)
    : option App1.Complaint :=
  find (fun r => String.eqb (App1.m_uuid r) uid) (App1.complaints conn).

(** The rows the three inserts write. *)
Definition new_project (conn : App1.Conn) (env : Env) (name location description : string)
    : App1.Project :=
  App1.mkProject (App1.seq_projects conn + 1) (uuid4 env) name location description
    (utcnow env) (Some (App1.simulate_tx_hash (uuid4 env ++ utcnow env))).

Definition new_credit (str_float : float -> string) (conn : App1.Conn) (env : Env)
    (project_id : Z) (data_type : string) (c : float) (status : string) (notes : Msg)
    : App1.Credit :=
  App1.mkCredit (App1.seq_credits conn + 1) (uuid4 env) project_id data_type c status
    notes (utcnow env)
    (Some (App1.simulate_tx_hash (uuid4 env ++ str_float c ++ utcnow env))).

Definition new_complaint (conn : App1.Conn) (env : Env) (project_id : Z)
    (complaint : string) : App1.Complaint :=
  App1.mkComplaint (App1.seq_complaints conn + 1) (uuid4 env) project_id complaint
    "pending" (utcnow env)
    (Some (App1.simulate_tx_hash (uuid4 env ++ complaint ++ utcnow env))).

Definition with_project (conn : App1.Conn) (r : App1.Project) : App1.Conn :=
  App1.mkConn (App1.projects conn ++ [r]) (App1.credits conn) (App1.complaints conn)
    (App1.seq_projects conn + 1) (App1.seq_credits conn) (App1.seq_complaints conn).
Definition with_credit (conn : App1.Conn) (r : App1.Credit) : App1.Conn :=
  App1.mkConn (App1.projects conn) (App1.credits conn ++ [r]) (App1.complaints conn)
    (App1.seq_projects conn) (App1.seq_credits conn + 1) (App1.seq_complaints conn).
Definition with_complaint (conn : App1.Conn) (r : App1.Complaint) : App1.Conn :=
  App1.mkConn (App1.projects conn) (App1.credits conn) (App1.complaints conn ++ [r])
    (App1.seq_projects conn) (App1.seq_credits conn) (App1.seq_complaints conn + 1).

(** The uuid of the environment is not yet in the table. *)
Definition fresh_project (conn : App1.Conn) (env : Env) : bool :=
  negb (existsb (fun r => String.eqb (App1.p_uuid r) (uuid4 env)) (App1.projects conn)).
Definition fresh_credit (conn : App1.Conn) (env : Env) : bool :=
  negb (existsb (fun r => String.eqb (App1.c_uuid r) (uuid4 env)) (App1.credits conn)).
Definition fresh_complaint (conn : App1.Conn) (env : Env) : bool :=
  negb (existsb (fun r => String.eqb (App1.m_uuid r) (uuid4 env)) (App1.complaints conn)).

(** One run of the page script, and the stores it can lead to. *)
Definition step1 (str_float : float -> string) (conn : App1.Conn)
    (a : Env * App1.Page) : App1.Conn :=
  final_state (App1.run_streamlit_app str_float (fst a) (snd a) conn).

Inductive reachable1 (str_float : float -> string) : App1.Conn -> Prop :=
| reach1_init : reachable1 str_float App1.init_db
| reach1_step conn a :
    reachable1 str_float conn -> reachable1 str_float (step1 str_float conn a).

(** A ledger hash as [hexdigest] returns it. *)
Definition is_digest (tx : option string) : Prop :=
  exists s, tx = Some s /\ String.length s = 64%nat
            /\ forallb is_hex (list_ascii_of_string s) = true.

(** What every store of [app1.py] satisfies. *)
Record store_ok (conn : App1.Conn) : Prop := mk_store_ok {
  ok_project_ids :
    map App1.p_id (App1.projects conn)
    = map Z.of_nat (List.seq 1 (List.length (App1.projects conn)));
  ok_credit_ids :
    map App1.c_id (App1.credits conn)
    = map Z.of_nat (List.seq 1 (List.length (App1.credits conn)));
  ok_complaint_ids :
    map App1.m_id (App1.complaints conn)
    = map Z.of_nat (List.seq 1 (List.length (App1.complaints conn)));
  ok_seq_projects : App1.seq_projects conn = Z.of_nat (List.length (App1.projects conn));
  ok_seq_credits : App1.seq_credits conn = Z.of_nat (List.length (App1.credits conn));
  ok_seq_complaints :
    App1.seq_complaints conn = Z.of_nat (List.length (App1.complaints conn));
  ok_project_uuids : NoDup (map App1.p_uuid (App1.projects conn));
  ok_credit_uuids : NoDup (map App1.c_uuid (App1.credits conn));
  ok_complaint_uuids : NoDup (map App1.m_uuid (App1.complaints conn));
  ok_project_hashes : forall r, In r (App1.projects conn) -> is_digest (App1.p_tx_hash r);
  ok_credit_hashes : forall r, In r (App1.credits conn) -> is_digest (App1.c_tx_hash r);
  ok_complaint_hashes :
    forall r, In r (App1.complaints conn) -> is_digest (App1.m_tx_hash r);
  ok_credit_rows :
    forall r, In r (App1.credits conn) ->
      App1.c_status r = "verified" /\ App1.c_data_type r = "image"
      /\ exists v, App1.c_notes r = MsgVariance v;
  ok_complaint_rows :
    forall r, In r (App1.complaints conn) -> App1.m_status r = "pending"
}.

(** The page submits something to a table of the store. *)
Definition submits (page : App1.Page) (conn : App1.Conn) : bool :=
  match page with
  | App1.ProjectRegistry name _ _ submit => andb submit (App1.nonempty name)
  | App1.UploadDataVerify _ uploaded_file =>
      match App1.projects conn, uploaded_file with
      | _ :: _, Some _ => true
      | _, _ => false
      end
  | App1.CarbonCreditRegistry => false
  | App1.ComplaintRegistry _ complaint_text submit =>
      match App1.projects conn with
      | _ :: _ => andb submit (App1.nonempty complaint_text)
      | [] => false
      end
  end.

Ltac run_page :=
  cbv [step1 App1.run_streamlit_app App1.list_projects App1.list_credits
       App1.list_complaints App1.call_calculate_carbon_credits
       bind emit emit_all ret stop raise get put fst snd app final_state].

(* ===================================================================== *)
(** * Properties *)
(* ===================================================================== *)

(** ** Comparisons and sums over [Q] *)







Lemma Qlen_nonneg l : (0 <= Qlen l)%Q.
Proof.
  unfold Qlen. change 0%Q with (inject_Z 0). rewrite <- Zle_Qle. lia.
Qed.







(** ** The variance of an array of integers, without division *)








(** ** C1: the image validator *)





(** ** C2: the tabular credit estimate *)








(** ** The tabular validator: anomalies *)



Lemma dropna_map_Some l : dropna (map Some l) = l.
Proof. induction l as [|x l IH]; simpl; [reflexivity|]. rewrite IH. reflexivity. Qed.


















(** ** The tabular validator: distinct values *)

Lemma existsb_Qeq x l :
  existsb (Qeq_bool x) l = true <-> exists y, In y l /\ (x == y)%Q.
Proof.
  rewrite existsb_exists. split; intros (y & Hin & H); exists y; split; auto;
    apply Qeq_bool_iff; exact H.
Qed.

Lemma nunique_zero l : nunique l = 0%nat -> l = [].
Proof.
  induction l as [|x l IH]; simpl; [reflexivity|].
  destruct (existsb (Qeq_bool x) l) eqn:E; [|discriminate].
  intros H. specialize (IH H). subst. discriminate.
Qed.

Lemma nunique_le1 l :
  (nunique l <= 1)%nat <-> exists a, forall x, In x l -> (x == a)%Q.
Proof.
  split.
  - induction l as [|x l IH]; simpl; intros H.
    + exists 0%Q. intros ? [].
    + destruct (existsb (Qeq_bool x) l) eqn:E.
      * destruct (IH H) as (a & Ha). exists a. intros y [<-|Hy]; [|auto].
        apply existsb_Qeq in E. destruct E as (z & Hz & Exz).
        rewrite Exz. auto.
      * assert (l = []) by (apply nunique_zero; lia). subst.
        exists x. intros y [<-|[]]. reflexivity.
  - intros (a & Ha). induction l as [|x l IH]; simpl; [lia|].
    assert (IH' : (nunique l <= 1)%nat) by (apply IH; intros; apply Ha; right; assumption).
    destruct l as [|y l'].
    + simpl. lia.
    + assert (E : existsb (Qeq_bool x) (y :: l') = true).
      { apply existsb_Qeq. exists y. split; [left; reflexivity|].
        rewrite (Ha x), (Ha y); [reflexivity | right; left; reflexivity | left; reflexivity]. }
      rewrite E. exact IH'.
Qed.

Lemma nunique_le2 l :
  (nunique l <= 2)%nat <->
  exists a b, forall x, In x l -> (x == a)%Q \/ (x == b)%Q.
Proof.
  split.
  - induction l as [|x l IH]; simpl; intros H.
    + exists 0%Q, 0%Q. intros ? [].
    + destruct (existsb (Qeq_bool x) l) eqn:E.
      * destruct (IH H) as (a & b & Hab). exists a, b. intros y [<-|Hy]; [|auto].
        apply existsb_Qeq in E. destruct E as (z & Hz & Exz).
        destruct (Hab z Hz) as [Ez|Ez]; [left|right]; rewrite Exz; exact Ez.
      * assert (H1 : (nunique l <= 1)%nat) by lia.
        apply nunique_le1 in H1. destruct H1 as (a & Ha).
        exists x, a. intros y [<-|Hy]; [left; reflexivity | right; auto].
  - intros (a & b & Hab). induction l as [|x l IH]; simpl; [lia|].
    assert (IH' : (nunique l <= 2)%nat) by (apply IH; intros; apply Hab; right; assumption).
    destruct (existsb (Qeq_bool x) l) eqn:E; [exact IH'|].
    assert (N : forall y, In y l -> ~ (x == y)%Q).
    { intros y Hy C. assert (existsb (Qeq_bool x) l = true)
        by (apply existsb_Qeq; exists y; auto). congruence. }
    assert (H1 : (nunique l <= 1)%nat).
    { apply nunique_le1. destruct (Hab x (or_introl eq_refl)) as [Ex|Ex].
      - exists b. intros y Hy. destruct (Hab y (or_intror Hy)) as [Ey|Ey]; [|exact Ey].
        exfalso. apply (N y Hy). rewrite Ex, Ey. reflexivity.
      - exists a. intros y Hy. destruct (Hab y (or_intror Hy)) as [Ey|Ey]; [exact Ey|].
        exfalso. apply (N y Hy). rewrite Ex, Ey. reflexivity. }
    lia.
Qed.


(** ** The tabular validator: verdicts *)


Lemma iot_passes_iff df :
  fst (anomaly_detection_iot df) = true <->
  exists col, value df = Some col
    /\ (3 <= List.length (dropna col))%nat
    /\ count_anomalies (dropna col) <= anomaly_budget (dropna col)
    /\ (2 < nunique (dropna col))%nat.
Proof.
  unfold anomaly_detection_iot. destruct (value df) as [col|].
  2:{ simpl. split; [discriminate|]. intros (c & E & _). discriminate. }
  destruct (List.length (dropna col) <? 3)%nat eqn:El.
  { apply Nat.ltb_lt in El. simpl. split; [discriminate|].
    intros (c & E & H & _). inversion E; subst. lia. }
  apply Nat.ltb_ge in El.
  destruct (anomaly_budget (dropna col) <? count_anomalies (dropna col)) eqn:Ea.
  { apply Z.ltb_lt in Ea. simpl. split; [discriminate|].
    intros (c & E & _ & H & _). inversion E; subst. lia. }
  apply Z.ltb_ge in Ea.
  destruct (nunique (dropna col) <=? 2)%nat eqn:Eu.
  { apply Nat.leb_le in Eu. simpl. split; [discriminate|].
    intros (c & E & _ & _ & H). inversion E; subst. lia. }
  apply Nat.leb_gt in Eu. simpl. split; [|reflexivity].
  intros _. exists col. auto.
Qed.


Lemma filter_nil_iff {A} (p : A -> bool) l :
  filter p l = [] <-> forall x, In x l -> p x = false.
Proof.
  induction l as [|x l IH]; simpl.
  - split; [intros _ ? []|reflexivity].
  - destruct (p x) eqn:E.
    + split; [discriminate|]. intros H. specialize (H x (or_introl eq_refl)). congruence.
    + rewrite IH. split.
      * intros H y [<-|Hy]; auto.
      * intros H y Hy. apply H. right. exact Hy.
Qed.



(** ** C3: outliers and the anomaly budget *)



(** ** C10: a series of zero standard deviation; missing readings *)




(** A missing reading is not a reading of zero: with the gaps dropped the
    series below has two distinct values and fails; with the gaps filled by
    zero it would have three and pass. *)
Example missing_is_not_zero :
  anomaly_detection_iot df_gaps = (false, MsgFlat)
  /\ fst (anomaly_detection_iot df_gaps_filled) = true.
Proof. split; vm_compute; reflexivity. Qed.

(** ** C8: the hash generator *)

Lemma hex_digit_is_hex n : is_hex (SHA256.hex_digit n) = true.
Proof.
  destruct n as [|p|p]; try reflexivity.
  do 4 (destruct p; try reflexivity).
Qed.

Lemma hex_of_state_length s : String.length (SHA256.hex_of_state s) = 64%nat.
Proof. reflexivity. Qed.

Lemma hex_of_state_is_hex s :
  forallb is_hex (list_ascii_of_string (SHA256.hex_of_state s)) = true.
Proof.
  unfold SHA256.hex_of_state, SHA256.hex8, SHA256.nibble.
  cbn [list_ascii_of_string forallb].
  rewrite !hex_digit_is_hex. reflexivity.
Qed.

Lemma hexdigest_length seed : String.length (SHA256.hexdigest seed) = 64%nat.
Proof. apply hex_of_state_length. Qed.

Lemma hexdigest_is_hex seed :
  forallb is_hex (list_ascii_of_string (SHA256.hexdigest seed)) = true.
Proof. apply hex_of_state_is_hex. Qed.

Lemma hexdigest_hash_set seed : hash_set (Some (SHA256.hexdigest seed)) = true.
Proof.
  unfold hash_set, hash_unset. destruct (String.eqb_spec (SHA256.hexdigest seed) "") as [E|]; [|reflexivity].
  pose proof (hexdigest_length seed) as L. rewrite E in L. discriminate.
Qed.

(** C8, amended. [app1.py]'s generator returns the SHA-256 digest of its
    seed, [app.py]'s the SHA-256 digest of its argument followed by a bar and
    the clock reading; both are 64 hexadecimal characters; [app1.py]'s is a
    function of the seed alone, [app.py]'s of the argument and the clock
    reading together.  On the sample seeds below, distinct seeds have
    distinct digests. *)
Theorem C8_hash_generator :
  (forall seed,
     App1.simulate_tx_hash seed = SHA256.hexdigest seed
     /\ String.length (App1.simulate_tx_hash seed) = 64%nat
     /\ forallb is_hex (list_ascii_of_string (App1.simulate_tx_hash seed)) = true)
  /\ (forall env record_uuid,
        App.simulate_tx_hash env record_uuid
        = SHA256.hexdigest (record_uuid ++ "|" ++ time_time env)
        /\ String.length (App.simulate_tx_hash env record_uuid) = 64%nat
        /\ forallb is_hex (list_ascii_of_string (App.simulate_tx_hash env record_uuid)) = true)
  /\ (forall env env' record_uuid,
        time_time env = time_time env' ->
        App.simulate_tx_hash env record_uuid = App.simulate_tx_hash env' record_uuid)
  /\ App1.simulate_tx_hash "abc"
     = "ba7816bf8f01cfea414140de5dae2223b00361a396177a9cb410ff61f20015ad"
  /\ App1.simulate_tx_hash "abc" <> App1.simulate_tx_hash "abd"
  /\ App1.simulate_tx_hash (uuid4 env_t1 ++ utcnow env_t1)
     <> App1.simulate_tx_hash (uuid4 env_t1 ++ utcnow env_t2).
Proof.
  split; [|split; [|split; [|split; [|split]]]].
  - intros seed. split; [reflexivity|]. split;
      [apply hexdigest_length | apply hexdigest_is_hex].
  - intros env u. split; [reflexivity|]. split;
      [apply hexdigest_length | apply hexdigest_is_hex].
  - intros env env' u E. unfold App.simulate_tx_hash. rewrite E. reflexivity.
  - vm_compute. reflexivity.
  - vm_compute. discriminate.
  - vm_compute. discriminate.
Qed.

Lemma C8_hash_generator_witness :
  App.simulate_tx_hash env_t1 "abc"
  = App.simulate_tx_hash (mkEnv "another-uuid" "another-instant" (time_time env_t1)) "abc".
Proof.
  destruct C8_hash_generator as (_ & _ & H & _). apply H. reflexivity.
Defined.

(** Two invocations of [app.py]'s generator with one argument, at two clock
    readings, return two digests, and neither is the digest of the argument. *)
Lemma C8_counterexample :
  App.simulate_tx_hash env_t1 "abc" <> App.simulate_tx_hash env_t2 "abc"
  /\ App.simulate_tx_hash env_t1 "abc" <> SHA256.hexdigest "abc".
Proof. split; vm_compute; discriminate. Qed.
Example sha256_abc :
  SHA256.hexdigest "abc"
  = "ba7816bf8f01cfea414140de5dae2223b00361a396177a9cb410ff61f20015ad"%string.
Proof. vm_compute. reflexivity. Qed.

Example sha256_empty :
  SHA256.hexdigest ""
  = "e3b0c44298fc1c149afbf4c8996fb92427ae41e4649b934ca495991b7852b855"%string.
Proof. vm_compute. reflexivity. Qed.

Example sha256_two_blocks :
  SHA256.hexdigest "abcdbcdecdefdefgefghfghighijhijkijkljklmklmnlmnomnopnopq"
  = "248d6a61d20638b8e5c026930c3e6039a33ce45964ff2167f6ecedd419db06c1"%string.
Proof. vm_compute. reflexivity. Qed.

Example sha256_round_constants :
  List.length SHA256.K = 64%nat
  /\ hd 0 SHA256.K = 0x428a2f98
  /\ last SHA256.K 0 = 0xc67178f2.
Proof. repeat split. Qed.

(** ** [app.py]: what one run of a handler does *)

Lemma verify_no_file env p conn :
  verify_and_calculate env p None conn = (Done tt, conn, [St_warning_upload_first]).
Proof. reflexivity. Qed.

Lemma verify_csv_unparsed env p file conn :
  endswith (lower (name file)) ".csv" = true ->
  read_csv file = None ->
  verify_and_calculate env p (Some file) conn
  = (Stopped, conn, [St_info_processing_csv; St_error_parse_csv]).
Proof. intros E R. run_handler. rewrite E, R. reflexivity. Qed.

Lemma verify_iot_verified env p file df msg n conn :
  endswith (lower (name file)) ".csv" = true ->
  read_csv file = Some df ->
  anomaly_detection_iot df = (true, msg) ->
  calculate_credits_iot df = Some n ->
  verify_and_calculate env p (Some file) conn
  = (Done tt, with_row conn (new_row conn env p "iot_csv" n "verified" msg),
     [St_info_processing_csv; Call_anomaly_detection_iot df true; St_write msg;
      Call_calculate_credits_iot df; St_success_verified n;
      Call_save_record "verified"; St_write_saved (uuid4 env)]).
Proof. intros E R V C. run_handler. rewrite E, R, V, C. reflexivity. Qed.

Lemma verify_iot_raises env p file df msg conn :
  endswith (lower (name file)) ".csv" = true ->
  read_csv file = Some df ->
  anomaly_detection_iot df = (true, msg) ->
  calculate_credits_iot df = None ->
  verify_and_calculate env p (Some file) conn
  = (Raised, conn,
     [St_info_processing_csv; Call_anomaly_detection_iot df true; St_write msg;
      Call_calculate_credits_iot df]).
Proof. intros E R V C. run_handler. rewrite E, R, V, C. reflexivity. Qed.

Lemma verify_iot_rejected env p file df msg conn :
  endswith (lower (name file)) ".csv" = true ->
  read_csv file = Some df ->
  anomaly_detection_iot df = (false, msg) ->
  verify_and_calculate env p (Some file) conn
  = (Done tt, with_row conn (new_row conn env p "iot_csv" 0 "rejected" msg),
     [St_info_processing_csv; Call_anomaly_detection_iot df false; St_write msg;
      Call_save_record "rejected"; St_error_rejected]).
Proof. intros E R V. run_handler. rewrite E, R, V. reflexivity. Qed.

Lemma verify_image_unopened env p file conn :
  endswith (lower (name file)) ".csv" = false ->
  image_open file = None ->
  verify_and_calculate env p (Some file) conn = (Stopped, conn, [St_error_open_image]).
Proof. intros E R. run_handler. rewrite E, R. reflexivity. Qed.

Lemma verify_image_verified env p file img msg conn :
  endswith (lower (name file)) ".csv" = false ->
  image_open file = Some img ->
  anomaly_detection_image img = (true, msg) ->
  verify_and_calculate env p (Some file) conn
  = (Done tt,
     with_row conn (new_row conn env p "image" (calculate_credits_image img) "verified" msg),
     [St_image; Call_anomaly_detection_image img true; St_write msg;
      Call_calculate_credits_image img; Call_save_record "verified";
      St_success_verified (calculate_credits_image img); St_write_saved (uuid4 env)]).
Proof. intros E R V. run_handler. rewrite E, R, V. reflexivity. Qed.

Lemma verify_image_rejected env p file img msg conn :
  endswith (lower (name file)) ".csv" = false ->
  image_open file = Some img ->
  anomaly_detection_image img = (false, msg) ->
  verify_and_calculate env p (Some file) conn
  = (Done tt, with_row conn (new_row conn env p "image" 0 "rejected" msg),
     [St_image; Call_anomaly_detection_image img false; St_write msg;
      Call_save_record "rejected"; St_error_rejected]).
Proof. intros E R V. run_handler. rewrite E, R, V. reflexivity. Qed.

Lemma issue_nothing env conn :
  select_latest_unissued conn = None ->
  issue_simulated_tx env conn = (Done tt, conn, [St_info_no_record]).
Proof. intros E. run_handler. rewrite E. reflexivity. Qed.

Lemma issue_some env conn rec_id rec_uuid :
  select_latest_unissued conn = Some (rec_id, rec_uuid) ->
  issue_simulated_tx env conn
  = (Done tt,
     mkConn (map (set_tx_hash (simulate_tx_hash env rec_uuid) rec_id) (registry conn))
            (seq conn),
     [Call_simulate_tx_hash rec_uuid; St_success_issued (simulate_tx_hash env rec_uuid)]).
Proof. intros E. run_handler. rewrite E. reflexivity. Qed.

(** Every run of the upload handler is one of the branches. *)
Lemma verify_run_total env p conn f :
  verify_run env p conn f (verify_and_calculate env p f conn).
Proof.
  destruct f as [file|].
  2:{ rewrite verify_no_file. constructor. }
  destruct (endswith (lower (name file)) ".csv") eqn:Eend.
  - destruct (read_csv file) as [df|] eqn:Eread.
    2:{ rewrite verify_csv_unparsed by assumption. constructor; assumption. }
    destruct (anomaly_detection_iot df) as [[|] msg] eqn:Eval.
    + destruct (calculate_credits_iot df) as [n|] eqn:Ecalc.
      * erewrite verify_iot_verified by eassumption. econstructor; eassumption.
      * erewrite verify_iot_raises by eassumption. econstructor; eassumption.
    + erewrite verify_iot_rejected by eassumption. econstructor; eassumption.
  - destruct (image_open file) as [img|] eqn:Eopen.
    2:{ rewrite verify_image_unopened by assumption. constructor; assumption. }
    destruct (anomaly_detection_image img) as [[|] msg] eqn:Eval.
    + erewrite verify_image_verified by eassumption. econstructor; eassumption.
    + erewrite verify_image_rejected by eassumption. econstructor; eassumption.
Qed.

Lemma issue_run_total env conn : issue_run env conn (issue_simulated_tx env conn).
Proof.
  destruct (select_latest_unissued conn) as [[rec_id rec_uuid]|] eqn:E.
  - rewrite (issue_some _ _ _ _ E). constructor. exact E.
  - rewrite (issue_nothing _ _ E). constructor. exact E.
Qed.

(** ** [app.py]: the table under the two handlers *)

Lemma step_verify_cases conn env p f :
  step conn (VerifyAndCalculate env p f) = conn
  \/ exists dt n status msg,
       step conn (VerifyAndCalculate env p f)
       = with_row conn (new_row conn env p dt n status msg).
Proof.
  unfold step, run, final_state.
  destruct (verify_run_total env p conn f); simpl; auto; right; eauto.
Qed.

Lemma step_issue_cases conn env :
  (select_latest_unissued conn = None /\ step conn (IssueSimulatedTx env) = conn)
  \/ exists rec_id rec_uuid,
       select_latest_unissued conn = Some (rec_id, rec_uuid)
       /\ step conn (IssueSimulatedTx env)
          = mkConn (map (set_tx_hash (simulate_tx_hash env rec_uuid) rec_id) (registry conn))
                   (seq conn).
Proof.
  unfold step, run, final_state.
  destruct (issue_run_total env conn); simpl; [left; auto | right; eauto].
Qed.

Lemma set_tx_hash_id tx i r : id (set_tx_hash tx i r) = id r.
Proof. unfold set_tx_hash. destruct (id r =? i); reflexivity. Qed.

Lemma set_tx_hash_other tx i r : id r <> i -> set_tx_hash tx i r = r.
Proof. unfold set_tx_hash. intros H. apply Z.eqb_neq in H. rewrite H. reflexivity. Qed.

Lemma set_tx_hash_fields tx i r :
  mrv_status (set_tx_hash tx i r) = mrv_status r
  /\ credits (set_tx_hash tx i r) = credits r
  /\ mrv_msg (set_tx_hash tx i r) = mrv_msg r
  /\ record_uuid (set_tx_hash tx i r) = record_uuid r.
Proof. unfold set_tx_hash. destruct (id r =? i); simpl; auto. Qed.

Lemma map_set_tx_hash_ids tx i l : map id (map (set_tx_hash tx i) l) = map id l.
Proof.
  rewrite map_map. apply map_ext. intros r. apply set_tx_hash_id.
Qed.

Lemma wf_init : wf_conn init_db.
Proof. split; constructor. Qed.

Lemma NoDup_snoc {A} (l : list A) (x : A) : NoDup l -> ~ In x l -> NoDup (l ++ [x]).
Proof.
  induction l as [|y l IH]; simpl; intros Hnd Hx.
  - constructor; [intros []|constructor].
  - inversion Hnd; subst. constructor.
    + intros Hin. apply in_app_or in Hin. destruct Hin as [Hin|[->|[]]]; tauto.
    + apply IH; tauto.
Qed.

Lemma wf_with_row conn env p dt n status msg :
  wf_conn conn -> wf_conn (with_row conn (new_row conn env p dt n status msg)).
Proof.
  intros [Hnd Hle]. unfold wf_conn, with_row. simpl. split.
  - rewrite map_app. simpl. apply NoDup_snoc; [exact Hnd|].
    intros Hin. apply in_map_iff in Hin. destruct Hin as (r & E & Hr).
    rewrite Forall_forall in Hle. specialize (Hle r Hr). simpl in Hle. lia.
  - apply Forall_app. split.
    + eapply Forall_impl; [|exact Hle]. simpl. intros. lia.
    + constructor; [simpl; lia | constructor].
Qed.

Lemma wf_step conn a : wf_conn conn -> wf_conn (step conn a).
Proof.
  intros Hwf. destruct a as [env p f|env].
  - destruct (step_verify_cases conn env p f) as [E|(dt & n & s & m & E)]; rewrite E.
    + exact Hwf.
    + apply wf_with_row. exact Hwf.
  - destruct (step_issue_cases conn env) as [[_ E]|(i & u & _ & E)]; rewrite E.
    + exact Hwf.
    + destruct Hwf as [Hnd Hle]. split; simpl.
      * rewrite map_set_tx_hash_ids. exact Hnd.
      * apply Forall_map. eapply Forall_impl; [|exact Hle]. simpl.
        intros r Hr. rewrite set_tx_hash_id. exact Hr.
Qed.

Lemma reachable_wf conn : reachable conn -> wf_conn conn.
Proof.
  induction 1; [apply wf_init | apply wf_step; assumption].
Qed.

Lemma reachable_steps conn actions : reachable conn -> reachable (steps conn actions).
Proof.
  revert conn. induction actions as [|a rest IH]; intros conn H; simpl; [exact H|].
  apply IH. constructor. exact H.
Qed.

Lemma same_id_same_row conn r r' :
  wf_conn conn -> In r (registry conn) -> In r' (registry conn) -> id r = id r' -> r = r'.
Proof.
  intros [Hnd _]. induction (registry conn) as [|x l IH]; simpl; [tauto|].
  inversion Hnd as [|? ? Hx Hl]; subst. intros [->|Hr] [->|Hr'] E; auto.
  - exfalso. apply Hx. rewrite E. apply in_map. exact Hr'.
  - exfalso. apply Hx. rewrite <- E. apply in_map. exact Hr.
Qed.

Lemma latest_in rows r : latest rows = Some r -> In r rows.
Proof.
  revert r. induction rows as [|x l IH]; simpl; intros r H; [discriminate|].
  destruct (latest l) as [m|].
  - destruct (id m <? id x); inversion H; subst; auto.
  - inversion H. auto.
Qed.

Lemma latest_none rows : latest rows = None <-> rows = [].
Proof.
  destruct rows as [|x l]; simpl; [tauto|].
  destruct (latest l) as [m|]; [destruct (id m <? id x)|]; split; discriminate.
Qed.

(** The row the issue handler selects is verified and has no hash. *)
Lemma select_latest_unissued_spec conn rec_id rec_uuid :
  select_latest_unissued conn = Some (rec_id, rec_uuid) ->
  exists r, In r (registry conn) /\ id r = rec_id /\ record_uuid r = rec_uuid
            /\ mrv_status r = "verified" /\ hash_unset (tx_hash r) = true.
Proof.
  unfold select_latest_unissued.
  destruct (latest (filter unissued_verified (registry conn))) as [r|] eqn:E; [|discriminate].
  simpl. intros H. inversion H; subst. apply latest_in in E.
  apply filter_In in E. destruct E as [Hin Hu]. unfold unissued_verified in Hu.
  apply andb_true_iff in Hu. destruct Hu as [Hs Hh]. apply String.eqb_eq in Hs.
  exists r. auto.
Qed.

Lemma select_latest_unissued_none conn :
  select_latest_unissued conn = None <->
  forall r, In r (registry conn) ->
            ~ (mrv_status r = "verified" /\ hash_unset (tx_hash r) = true).
Proof.
  unfold select_latest_unissued.
  destruct (latest (filter unissued_verified (registry conn))) as [r|] eqn:E; simpl.
  - split; [discriminate|]. intros H. exfalso. apply latest_in in E.
    apply filter_In in E. destruct E as [Hin Hu]. apply (H r Hin).
    unfold unissued_verified in Hu. apply andb_true_iff in Hu. destruct Hu as [Hs Hh].
    apply String.eqb_eq in Hs. auto.
  - split; [|reflexivity]. intros _ r Hin [Hs Hh].
    apply latest_none in E.
    assert (In r (filter unissued_verified (registry conn))).
    { apply filter_In. split; [exact Hin|]. unfold unissued_verified.
      rewrite Hs, Hh. reflexivity. }
    rewrite E in *. contradiction.
Qed.

Lemma hash_set_unset tx : hash_set tx = true -> hash_unset tx = true -> False.
Proof. unfold hash_set. intros H1 H2. rewrite H2 in H1. discriminate. Qed.

(** A row whose hash is set survives any single action unchanged. *)
Lemma set_hash_survives_step conn a r :
  wf_conn conn -> In r (registry conn) -> hash_set (tx_hash r) = true ->
  In r (registry (step conn a)).
Proof.
  intros Hwf Hin Hset. destruct a as [env p f|env].
  - destruct (step_verify_cases conn env p f) as [E|(dt & n & s & m & E)]; rewrite E.
    + exact Hin.
    + unfold with_row. simpl. apply in_or_app. left. exact Hin.
  - destruct (step_issue_cases conn env) as [[_ E]|(i & u & Hsel & E)]; rewrite E.
    + exact Hin.
    + simpl. apply in_map_iff. exists r. split; [|exact Hin].
      apply set_tx_hash_other. intros Eid.
      destruct (select_latest_unissued_spec _ _ _ Hsel) as (r' & Hin' & Eid' & _ & _ & Hun).
      assert (r = r') by (eapply same_id_same_row; eauto; congruence).
      subst r'. eapply hash_set_unset; eauto.
Qed.

Lemma skipn_length_app {A} (l l' : list A) : skipn (List.length l) (l ++ l') = l'.
Proof. induction l as [|x l IH]; simpl; auto. Qed.

Lemma added_same conn : added conn conn = [].
Proof. unfold added. apply skipn_all. Qed.

Lemma added_with_row conn r : added conn (with_row conn r) = [r].
Proof. unfold added, with_row. simpl. apply skipn_length_app. Qed.

Lemma added_issue conn env : added conn (step conn (IssueSimulatedTx env)) = [].
Proof.
  destruct (step_issue_cases conn env) as [[_ E]|(i & u & _ & E)]; rewrite E.
  - apply added_same.
  - unfold added. simpl. apply skipn_all2. rewrite length_map. lia.
Qed.

(** ** [app1.py]: creation of rows *)

Lemma insert_desc_not_nil {A} (key : A -> Z) r l : insert_desc key r l <> [].
Proof. destruct l as [|x l]; simpl; [discriminate|]. destruct (key x <=? key r); discriminate. Qed.

Lemma order_by_desc_nil {A} (key : A -> Z) l : order_by_desc key l = [] -> l = [].
Proof.
  destruct l as [|x l]; [reflexivity|]. unfold order_by_desc. simpl.
  intros H. exfalso. eapply insert_desc_not_nil. exact H.
Qed.

(** The credit row that [add_credit] inserts. *)
Lemma app1_add_credit str_float env project_id data_type c status notes conn :
  existsb (fun r => String.eqb (App1.c_uuid r) (uuid4 env)) (App1.credits conn) = false ->
  let seed := (uuid4 env ++ str_float c ++ utcnow env)%string in
  let tx := App1.simulate_tx_hash seed in
  App1.add_credit str_float env project_id data_type c status notes conn
  = (Done (uuid4 env, tx),
     App1.mkConn (App1.projects conn)
       (App1.credits conn
        ++ [App1.mkCredit (App1.seq_credits conn + 1) (uuid4 env) project_id data_type
              c status notes (utcnow env) (Some tx)])
       (App1.complaints conn)
       (App1.seq_projects conn) (App1.seq_credits conn + 1) (App1.seq_complaints conn),
     [App1.Call_add_credit status; App1.Call_simulate_tx_hash seed]).
Proof. intros E seed tx. run_app1. rewrite E. reflexivity. Qed.

Lemma app1_add_project env name location description conn :
  existsb (fun r => String.eqb (App1.p_uuid r) (uuid4 env)) (App1.projects conn) = false ->
  let seed := (uuid4 env ++ utcnow env)%string in
  let tx := App1.simulate_tx_hash seed in
  App1.add_project env name location description conn
  = (Done (uuid4 env, tx),
     App1.mkConn
       (App1.projects conn
        ++ [App1.mkProject (App1.seq_projects conn + 1) (uuid4 env) name location
              description (utcnow env) (Some tx)])
       (App1.credits conn) (App1.complaints conn)
       (App1.seq_projects conn + 1) (App1.seq_credits conn) (App1.seq_complaints conn),
     [App1.Call_add_project; App1.Call_simulate_tx_hash seed]).
Proof. intros E seed tx. run_app1. rewrite E. reflexivity. Qed.

Lemma app1_add_complaint env project_id complaint conn :
  existsb (fun r => String.eqb (App1.m_uuid r) (uuid4 env)) (App1.complaints conn) = false ->
  let seed := (uuid4 env ++ complaint ++ utcnow env)%string in
  let tx := App1.simulate_tx_hash seed in
  App1.add_complaint env project_id complaint conn
  = (Done (uuid4 env, tx),
     App1.mkConn (App1.projects conn) (App1.credits conn)
       (App1.complaints conn
        ++ [App1.mkComplaint (App1.seq_complaints conn + 1) (uuid4 env) project_id
              complaint "pending" (utcnow env) (Some tx)])
       (App1.seq_projects conn) (App1.seq_credits conn) (App1.seq_complaints conn + 1),
     [App1.Call_add_complaint; App1.Call_simulate_tx_hash seed]).
Proof. intros E seed tx. run_app1. rewrite E. reflexivity. Qed.

(** The upload page of [app1.py] on a decoded image. *)
Lemma app1_upload_run str_float env selected img conn :
  App1.projects conn <> [] ->
  existsb (fun r => String.eqb (App1.c_uuid r) (uuid4 env)) (App1.credits conn) = false ->
  let c := fst (calculate_carbon_credits img) in
  let v := snd (calculate_carbon_credits img) in
  let seed := (uuid4 env ++ str_float c ++ utcnow env)%string in
  let tx := App1.simulate_tx_hash seed in
  App1.run_streamlit_app str_float env
    (App1.UploadDataVerify selected (Some (Some img))) conn
  = (Done tt,
     App1.mkConn (App1.projects conn)
       (App1.credits conn
        ++ [App1.mkCredit (App1.seq_credits conn + 1) (uuid4 env) selected "image"
              c "verified" (MsgVariance v) (utcnow env) (Some tx)])
       (App1.complaints conn)
       (App1.seq_projects conn) (App1.seq_credits conn + 1) (App1.seq_complaints conn),
     [App1.Call_calculate_carbon_credits img; App1.St_image; App1.St_write_variance v;
      App1.St_write_credits c; App1.Call_add_credit "verified";
      App1.Call_simulate_tx_hash seed; App1.St_success_credit tx]).
Proof.
  intros Hp E c v seed tx. subst c v seed tx. run_app1.
  destruct (order_by_desc App1.p_id (App1.projects conn)) eqn:Eo.
  { apply order_by_desc_nil in Eo. contradiction. }
  destruct (calculate_carbon_credits img) as [c v]. rewrite E. reflexivity.
Qed.

(** ** C9: the issue button without a candidate *)

(** C9. When no row is verified with an unset hash, the issue handler logs
    the informational message only and leaves the store as it was. *)
Theorem C9_issue_without_candidate (env : Env) (conn : Conn) :
  (forall r, In r (registry conn) ->
             ~ (mrv_status r = "verified" /\ hash_unset (tx_hash r) = true)) ->
  issue_simulated_tx env conn = (Done tt, conn, [St_info_no_record])
  /\ step conn (IssueSimulatedTx env) = conn.
Proof.
  intros H. apply select_latest_unissued_none in H.
  pose proof (issue_nothing env conn H) as E. split; [exact E|].
  unfold step, run, final_state. rewrite E. reflexivity.
Qed.

Lemma C9_issue_without_candidate_witness :
  issue_simulated_tx env_t1 conn_issued = (Done tt, conn_issued, [St_info_no_record]).
Proof.
  apply (C9_issue_without_candidate env_t1 conn_issued).
  intros r Hin [Hs Hu]. vm_compute in Hin.
  destruct Hin as [<-|[<-|[]]]; vm_compute in Hs, Hu; discriminate.
Defined.

(** ** C6: a set hash is never overwritten *)

Lemma set_hash_survives_steps actions : forall conn r,
  reachable conn -> In r (registry conn) -> hash_set (tx_hash r) = true ->
  In r (registry (steps conn actions)).
Proof.
  induction actions as [|a rest IH]; intros conn r Hr Hin Hset; simpl; [exact Hin|].
  apply IH; [constructor; exact Hr| |exact Hset].
  apply set_hash_survives_step; [apply reachable_wf; exact Hr | exact Hin | exact Hset].
Qed.

Lemma selected_row_unset conn rec_id rec_uuid r :
  wf_conn conn ->
  select_latest_unissued conn = Some (rec_id, rec_uuid) ->
  In r (registry conn) -> id r = rec_id ->
  hash_unset (tx_hash r) = true /\ mrv_status r = "verified" /\ record_uuid r = rec_uuid.
Proof.
  intros Hwf Hsel Hin Eid.
  destruct (select_latest_unissued_spec _ _ _ Hsel) as (r' & Hin' & Eid' & Eu & Es & Hun).
  assert (r = r') by (eapply same_id_same_row; eauto; congruence).
  subst r'. auto.
Qed.

(** C6. In a store the application can reach, a row whose hash is set stays
    in the table as it is through every later sequence of actions, issue
    actions included; and the row an issue action selects has its hash
    unset. *)
Theorem C6_hash_never_overwritten (conn : Conn) :
  reachable conn ->
  (forall r actions,
     In r (registry conn) -> hash_set (tx_hash r) = true ->
     In r (registry (steps conn actions)))
  /\ (forall rec_id rec_uuid r,
        select_latest_unissued conn = Some (rec_id, rec_uuid) ->
        In r (registry conn) -> id r = rec_id ->
        hash_unset (tx_hash r) = true).
Proof.
  intros Hr. split.
  - intros r actions Hin Hset. apply set_hash_survives_steps; assumption.
  - intros i u r Hsel Hin Eid.
    apply (selected_row_unset conn i u r (reachable_wf _ Hr) Hsel Hin Eid).
Qed.

Lemma reachable_conn_demo : reachable conn_demo.
Proof. unfold conn_demo. apply reachable_steps. constructor. Qed.

Lemma reachable_conn_issued : reachable conn_issued.
Proof. unfold conn_issued. constructor. apply reachable_conn_demo. Qed.

Lemma C6_hash_never_overwritten_witness :
  In row_issued
     (registry (steps conn_issued
                  [IssueSimulatedTx env_t1;
                   VerifyAndCalculate env_t1 "Demo Mangrove Project" (Some upload_flat);
                   IssueSimulatedTx env_t2])).
Proof.
  destruct (C6_hash_never_overwritten conn_issued reachable_conn_issued) as [H _].
  apply H.
  - vm_compute. left. reflexivity.
  - vm_compute. reflexivity.
Defined.

(** ** C7: when a record gets its hash *)





(** ** C5: rejected records *)

Lemma rejected_ok_step conn a :
  (forall r, In r (registry conn) -> rejected_ok r) ->
  forall r, In r (registry (step conn a)) -> rejected_ok r.
Proof.
  intros Hinv r. destruct a as [env p f|env].
  - unfold step, run, final_state.
    destruct (verify_run_total env p conn f); simpl; try (apply Hinv);
      intros Hin; apply in_app_or in Hin;
      (destruct Hin as [Hin|[<-|[]]]; [apply Hinv; exact Hin|]);
      unfold rejected_ok, new_row; simpl; intros Hs; try discriminate;
      (split; [reflexivity|]); unfold validator_failure; eauto.
  - destruct (step_issue_cases conn env) as [[_ E]|(i & u & _ & E)]; rewrite E.
    + apply Hinv.
    + simpl. intros Hin. apply in_map_iff in Hin. destruct Hin as (r0 & <- & Hin).
      specialize (Hinv r0 Hin). unfold rejected_ok in *.
      destruct (set_tx_hash_fields (simulate_tx_hash env u) i r0) as (Es & Ec & Em & _).
      rewrite Es, Ec, Em. exact Hinv.
Qed.

Lemma rejected_ok_reachable conn :
  reachable conn -> forall r, In r (registry conn) -> rejected_ok r.
Proof.
  induction 1 as [|conn a Hr IH].
  - intros r [].
  - apply rejected_ok_step. exact IH.
Qed.

(** C5. In every store the application reaches, a row of status [rejected]
    has 0 credits and carries the reason with which a validator failed; and
    a failed validation ends the handler normally, with that row appended to
    the table. *)
Theorem C5_rejected_records :
  (forall conn r,
     reachable conn -> In r (registry conn) -> mrv_status r = "rejected" ->
     credits r = 0 /\ validator_failure (mrv_msg r))
  /\ (forall conn env p file df msg,
        endswith (lower (name file)) ".csv" = true ->
        read_csv file = Some df ->
        anomaly_detection_iot df = (false, msg) ->
        let out := verify_and_calculate env p (Some file) conn in
        result out = Done tt
        /\ registry (final_state out)
           = registry conn ++ [new_row conn env p "iot_csv" 0 "rejected" msg])
  /\ (forall conn env p file img msg,
        endswith (lower (name file)) ".csv" = false ->
        image_open file = Some img ->
        anomaly_detection_image img = (false, msg) ->
        let out := verify_and_calculate env p (Some file) conn in
        result out = Done tt
        /\ registry (final_state out)
           = registry conn ++ [new_row conn env p "image" 0 "rejected" msg]).
Proof.
  split; [|split].
  - intros conn r Hr Hin. apply (rejected_ok_reachable conn Hr r Hin).
  - intros conn env p file df msg E R V out. subst out.
    rewrite (verify_iot_rejected env p file df msg conn E R V). split; reflexivity.
  - intros conn env p file img msg E R V out. subst out.
    rewrite (verify_image_rejected env p file img msg conn E R V). split; reflexivity.
Qed.

Lemma C5_rejected_records_witness :
  (credits (new_row (step init_db (VerifyAndCalculate env_t1 "Demo Mangrove Project"
                                     (Some upload_tight)))
                    env_t2 "Demo Mangrove Project" "iot_csv" 0 "rejected" MsgFlat) = 0
   /\ validator_failure MsgFlat)
  /\ registry (final_state (verify_and_calculate env_t2 "Demo Mangrove Project"
                              (Some upload_flat) init_db))
     = [new_row init_db env_t2 "Demo Mangrove Project" "iot_csv" 0 "rejected" MsgFlat]
  /\ result (verify_and_calculate env_t1 "Demo Mangrove Project"
               (Some upload_uniform) init_db) = Done tt.
Proof.
  destruct C5_rejected_records as (Hinv & Hiot & Himg). split; [|split].
  - apply (Hinv conn_demo).
    + exact reachable_conn_demo.
    + vm_compute. right. left. reflexivity.
    + reflexivity.
  - destruct (Hiot init_db env_t2 "Demo Mangrove Project" upload_flat df_flat MsgFlat)
      as [_ H]; [vm_compute; reflexivity | reflexivity | vm_compute; reflexivity |].
    exact H.
  - destruct (Himg init_db env_t1 "Demo Mangrove Project" upload_uniform img_uniform
                (snd (anomaly_detection_image img_uniform)))
      as [H _]; [vm_compute; reflexivity | reflexivity | vm_compute; reflexivity |].
    exact H.
Defined.

(** ** C4: verified only after validation *)

(** C4, amended. In [app.py] a row of status [verified] is persisted by the
    upload handler only, after the validator was called on the uploaded
    artifact and passed; the estimator is called only after the validator
    passed, and the row holds its estimate.  The upload page of [app1.py]
    calls no validator: it estimates every decoded image and persists the
    record as [verified]. *)
Theorem C4_verified_after_validation :
  (forall conn env p f r,
     let out := verify_and_calculate env p f conn in
     In r (added conn (final_state out)) ->
     mrv_status r = "verified" ->
     exists file, f = Some file
       /\ ((exists df, read_csv file = Some df
              /\ In (Call_anomaly_detection_iot df true) (trace out)
              /\ anomaly_detection_iot df = (true, mrv_msg r)
              /\ calculate_credits_iot df = Some (credits r))
           \/ (exists img, image_open file = Some img
                 /\ In (Call_anomaly_detection_image img true) (trace out)
                 /\ anomaly_detection_image img = (true, mrv_msg r)
                 /\ credits r = calculate_credits_image img)))
  /\ (forall conn env p f,
        let out := verify_and_calculate env p f conn in
        precedes is_validator_pass is_estimator_call (trace out) = true
        /\ precedes is_validator_pass is_save_verified (trace out) = true)
  /\ (forall conn env, added conn (step conn (IssueSimulatedTx env)) = [])
  /\ (forall str_float env selected img conn,
        App1.projects conn <> [] ->
        existsb (fun r => String.eqb (App1.c_uuid r) (uuid4 env)) (App1.credits conn) = false ->
        let out := App1.run_streamlit_app str_float env
                     (App1.UploadDataVerify selected (Some (Some img))) conn in
        let c := fst (calculate_carbon_credits img) in
        let v := snd (calculate_carbon_credits img) in
        let seed := (uuid4 env ++ str_float c ++ utcnow env)%string in
        result out = Done tt
        /\ (exists row, App1.credits (final_state out) = App1.credits conn ++ [row]
                        /\ App1.c_status row = "verified"
                        /\ App1.c_credits row = c)
        /\ trace out
           = [App1.Call_calculate_carbon_credits img; App1.St_image;
              App1.St_write_variance v; App1.St_write_credits c;
              App1.Call_add_credit "verified"; App1.Call_simulate_tx_hash seed;
              App1.St_success_credit (App1.simulate_tx_hash seed)]).
Proof.
  split; [|split; [|split]].
  - intros conn env p f r out. subst out.
    destruct (verify_run_total env p conn f); unfold final_state, trace; simpl;
      try (rewrite added_same; intros []);
      rewrite added_with_row; intros [<-|[]]; simpl; intros Hs; try discriminate;
      eexists; (split; [reflexivity|]).
    + left. exists df. repeat split; simpl; auto.
    + right. exists img. repeat split; simpl; auto.
  - intros conn env p f out. subst out.
    destruct (verify_run_total env p conn f); split; reflexivity.
  - intros conn env. apply added_issue.
  - intros str_float env selected img conn Hp Hu out c v seed. subst out.
    rewrite (app1_upload_run str_float env selected img conn Hp Hu). cbv zeta.
    split; [reflexivity|]. split; [|reflexivity].
    eexists. split; [reflexivity|]. split; reflexivity.
Qed.

Lemma C4_verified_after_validation_witness :
  (exists file, Some upload_tight = Some file
     /\ ((exists df, read_csv file = Some df
            /\ In (Call_anomaly_detection_iot df true)
                  (trace (verify_and_calculate env_t1 "Demo Mangrove Project"
                            (Some upload_tight) init_db))
            /\ anomaly_detection_iot df
               = (true, mrv_msg (new_row init_db env_t1 "Demo Mangrove Project" "iot_csv" 1
                                   "verified" (snd (anomaly_detection_iot df_tight))))
            /\ calculate_credits_iot df
               = Some (credits (new_row init_db env_t1 "Demo Mangrove Project" "iot_csv" 1
                                  "verified" (snd (anomaly_detection_iot df_tight)))))
         \/ (exists img, image_open file = Some img
               /\ In (Call_anomaly_detection_image img true)
                     (trace (verify_and_calculate env_t1 "Demo Mangrove Project"
                               (Some upload_tight) init_db))
               /\ anomaly_detection_image img
                  = (true, mrv_msg (new_row init_db env_t1 "Demo Mangrove Project" "iot_csv" 1
                                      "verified" (snd (anomaly_detection_iot df_tight))))
               /\ credits (new_row init_db env_t1 "Demo Mangrove Project" "iot_csv" 1
                             "verified" (snd (anomaly_detection_iot df_tight)))
                  = calculate_credits_image img)))
  /\ result (App1.run_streamlit_app str_float_2dp env_t2
               (App1.UploadDataVerify 1 (Some (Some img_uniform))) conn1_demo) = Done tt.
Proof.
  destruct C4_verified_after_validation as (Hv & _ & _ & H1). split.
  - apply (Hv init_db env_t1 "Demo Mangrove Project" (Some upload_tight)).
    + vm_compute. left. reflexivity.
    + reflexivity.
  - destruct (H1 str_float_2dp env_t2 1 img_uniform conn1_demo) as (H & _).
    + vm_compute. discriminate.
    + vm_compute. reflexivity.
    + exact H.
Defined.

(** The upload page of [app1.py] persists a uniform gray image as
    [verified]: the log of the run holds no validator call, and the image
    validator of the repository fails on that image. *)
Lemma C4_counterexample :
  let out := App1.run_streamlit_app str_float_2dp env_t2
               (App1.UploadDataVerify 1 (Some (Some img_uniform))) conn1_demo in
  App1.credits conn1_demo = []
  /\ map App1.c_status (App1.credits (final_state out)) = ["verified"]
  /\ trace out
     = [App1.Call_calculate_carbon_credits img_uniform; App1.St_image;
        App1.St_write_variance (luminance_variance img_uniform);
        App1.St_write_credits (fst (calculate_carbon_credits img_uniform));
        App1.Call_add_credit "verified";
        App1.Call_simulate_tx_hash
          "7c9e6679-7425-40de-944b-e07fc1f90ae70.02024-05-01T10:00:01.500000";
        App1.St_success_credit
          "3e1a36e205c80e4a1612f0316d7d4519a8c7c5f9d961bc99adb30254815faf57"]
  /\ fst (anomaly_detection_image img_uniform) = false.
Proof. cbv zeta. repeat split; vm_compute; reflexivity. Qed.

(* ===================================================================== *)
(** * Further properties of the validators and estimators *)
(* ===================================================================== *)

(** ** The tabular validator: how many anomalies a series can hold *)









(** ** The tabular validator: two distinct values *)

(** X2. A series whose non-missing readings take at most two distinct
    values never passes the validator, whatever its length and spread. *)
Theorem X2_two_values_never_pass (df : DataFrame) (col : list (option Q)) :
  value df = Some col ->
  (exists a b, forall v, In v (dropna col) -> (v == a)%Q \/ (v == b)%Q) ->
  fst (anomaly_detection_iot df) = false.
Proof.
  intros Hv Hab. destruct (fst (anomaly_detection_iot df)) eqn:E; [|reflexivity].
  exfalso. apply iot_passes_iff in E. destruct E as (c & Ec & _ & _ & Hu).
  rewrite Hv in Ec. inversion Ec; subst c.
  apply nunique_le2 in Hab. lia.
Qed.

Lemma X2_two_values_never_pass_witness :
  fst (anomaly_detection_iot df_gaps) = false.
Proof.
  apply (X2_two_values_never_pass df_gaps
           [Some 1%Q; Some 2%Q; None; Some 1%Q; Some 2%Q] eq_refl).
  exists 1%Q, 2%Q. intros v Hv. vm_compute in Hv.
  destruct Hv as [<-|[<-|[<-|[<-|[]]]]]; [left|right|left|right]; reflexivity.
Defined.

(** ** The image validator: uniform and empty images *)








(** X4. An image without pixels has a NaN variance, which is not below 50:
    the validator goes on to the size check and fails it with the
    small-image message, never with the low-variance one. *)
Theorem X4_empty_image (img : Image) :
  wf_image img ->
  luma img = [] ->
  luminance_variance img = None
  /\ anomaly_detection_image img = (false, MsgSmallImage (width img) (height img)).
Proof.
  intros Hwf He. unfold wf_image in Hwf. rewrite He in Hwf. simpl in Hwf.
  assert (Hv : luminance_variance img = None).
  { unfold luminance_variance. rewrite He. reflexivity. }
  split; [exact Hv|].
  unfold anomaly_detection_image. rewrite Hv. simpl.
  rewrite <- Hwf. reflexivity.
Qed.

Lemma X4_empty_image_witness :
  anomaly_detection_image (mkImage 0 0 []) = (false, MsgSmallImage 0 0).
Proof.
  destruct (X4_empty_image (mkImage 0 0 [])) as [_ H]; [reflexivity | reflexivity | exact H].
Defined.

(** ** [app1.py]: the variance-based estimate *)











(** ** [app.py]: the area-based estimate *)

Lemma credits_image_quot img :
  calculate_credits_image img
  = Z.max 1 (Z.quot (width img * height img * 1 * 10) 200000).
Proof. reflexivity. Qed.

(** X7. The area-based estimate is at least 1, equals
    [max(1, (w*h) // 20000)] for a non-negative area, and does not decrease
    when the pixel count grows. *)
Theorem X7_credits_image (img : Image) :
  1 <= calculate_credits_image img
  /\ (0 <= width img * height img ->
      calculate_credits_image img = Z.max 1 (width img * height img / 20000))
  /\ (forall img2,
        width img * height img <= width img2 * height img2 ->
        calculate_credits_image img <= calculate_credits_image img2).
Proof.
  rewrite credits_image_quot. split; [lia|]. split.
  - intros Ha. rewrite Z.quot_div_nonneg by lia.
    replace (width img * height img * 1 * 10) with (width img * height img * 10) by ring.
    replace 200000 with (20000 * 10) by reflexivity.
    rewrite Z.div_mul_cancel_r by lia. reflexivity.
  - intros img2 Hle. rewrite credits_image_quot.
    apply Z.max_le_compat_l. apply Z.quot_le_mono; lia.
Qed.

Lemma X7_credits_image_witness :
  calculate_credits_image img_gray = 2
  /\ calculate_credits_image img_small <= calculate_credits_image img_gray.
Proof.
  destruct (X7_credits_image img_gray) as (_ & H & _).
  destruct (X7_credits_image img_small) as (_ & _ & M). split.
  - rewrite H; [reflexivity | vm_compute; discriminate].
  - apply M. vm_compute. discriminate.
Defined.

(* ===================================================================== *)
(** * Further properties of the record store of [app.py] *)
(* ===================================================================== *)

(** ** Identifiers and the order of [fetch_registry] *)

Lemma map_of_nat_seq_S a n :
  map Z.of_nat (List.seq a (S n)) = map Z.of_nat (List.seq a n) ++ [Z.of_nat (a + n)].
Proof. rewrite List.seq_S, map_app. reflexivity. Qed.

Lemma reachable_ids (conn : Conn) :
  reachable conn ->
  map id (registry conn) = map Z.of_nat (List.seq 1 (List.length (registry conn)))
  /\ seq conn = Z.of_nat (List.length (registry conn)).
Proof.
  induction 1 as [|conn a Hr [IHi IHs]]; [split; reflexivity|].
  destruct a as [env p f|env].
  - destruct (step_verify_cases conn env p f) as [E|(dt & n & s & m & E)]; rewrite E.
    + split; assumption.
    + unfold with_row. simpl. rewrite length_app, map_app. simpl.
      rewrite Nat.add_1_r, map_of_nat_seq_S, IHi, IHs. split.
      * f_equal. f_equal. lia.
      * lia.
  - destruct (step_issue_cases conn env) as [[_ E]|(i & u & _ & E)]; rewrite E.
    + split; assumption.
    + simpl. rewrite map_set_tx_hash_ids, length_map. split; assumption.
Qed.

(** X8. In every store the application reaches, the rows carry the ids
    1, 2, ..., n in insertion order and the AUTOINCREMENT counter is n: an
    id is never reused or skipped, and the next record gets id n + 1. *)
Theorem X8_ids_sequential (conn : Conn) :
  reachable conn ->
  map id (registry conn) = map Z.of_nat (List.seq 1 (List.length (registry conn)))
  /\ seq conn = Z.of_nat (List.length (registry conn))
  /\ (forall env p dt n status msg,
        id (new_row conn env p dt n status msg)
        = Z.of_nat (List.length (registry conn)) + 1).
Proof.
  intros Hr. destruct (reachable_ids conn Hr) as [Hi Hs].
  split; [exact Hi|]. split; [exact Hs|].
  intros. unfold new_row. simpl. rewrite Hs. reflexivity.
Qed.

Lemma X8_ids_sequential_witness :
  map id (registry conn_issued) = [1; 2] /\ seq conn_issued = 2.
Proof.
  destruct (X8_ids_sequential conn_issued reachable_conn_issued) as (H1 & H2 & _).
  rewrite H1, H2. split; vm_compute; reflexivity.
Defined.

Lemma insert_desc_perm {A} (key : A -> Z) r l : Permutation (insert_desc key r l) (r :: l).
Proof.
  induction l as [|x l IH]; simpl; [reflexivity|].
  destruct (key x <=? key r); [reflexivity|].
  rewrite IH. apply perm_swap.
Qed.

Lemma order_by_desc_perm {A} (key : A -> Z) l : Permutation (order_by_desc key l) l.
Proof.
  induction l as [|x l IH]; simpl; [reflexivity|].
  unfold order_by_desc in *. simpl. rewrite insert_desc_perm. constructor. exact IH.
Qed.

Lemma insert_desc_sorted {A} (key : A -> Z) r l :
  sorted_desc key l -> sorted_desc key (insert_desc key r l).
Proof.
  unfold sorted_desc. induction l as [|x l IH]; simpl; intros Hs.
  - constructor; constructor.
  - destruct (key x <=? key r) eqn:E.
    + apply Z.leb_le in E. constructor; [exact Hs|]. constructor. exact E.
    + apply Z.leb_gt in E. inversion Hs as [|? ? Hs' Hhd]; subst.
      constructor; [apply IH; exact Hs'|].
      destruct l as [|y l']; simpl.
      * constructor. lia.
      * destruct (key y <=? key r); constructor; [lia|].
        inversion Hhd; subst. assumption.
Qed.

Lemma order_by_desc_sorted {A} (key : A -> Z) l : sorted_desc key (order_by_desc key l).
Proof.
  induction l as [|x l IH]; unfold order_by_desc in *; simpl.
  - constructor.
  - apply insert_desc_sorted. exact IH.
Qed.

Lemma insert_desc_last {A} (key : A -> Z) r l :
  (forall y, In y l -> key r < key y) -> insert_desc key r l = l ++ [r].
Proof.
  induction l as [|x l IH]; simpl; intros H; [reflexivity|].
  assert (E : (key x <=? key r) = false)
    by (apply Z.leb_gt; apply H; left; reflexivity).
  rewrite E, IH; [reflexivity|]. intros y Hy. apply H. right. exact Hy.
Qed.

Lemma order_by_desc_ascending {A} (key : A -> Z) l a :
  map key l = map Z.of_nat (List.seq a (List.length l)) ->
  order_by_desc key l = rev l.
Proof.
  revert a. induction l as [|x l IH]; intros a H; [reflexivity|].
  simpl in H. inversion H as [[Hx Hl]].
  unfold order_by_desc in *. simpl fold_right. rewrite (IH (S a) Hl).
  simpl rev. apply insert_desc_last.
  intros y Hy. apply in_rev in Hy. apply (in_map key) in Hy. rewrite Hl in Hy.
  apply in_map_iff in Hy. destruct Hy as (k & Ek & Hk). apply List.in_seq in Hk.
  rewrite Hx, <- Ek. lia.
Qed.

(** X9. [fetch_registry] returns the rows of the table, each once, in
    non-increasing order of id; in a store the application reaches that is
    the insertion order reversed: newest first. *)
Theorem X9_fetch_registry_order (conn : Conn) :
  Permutation (fetch_registry conn) (registry conn)
  /\ sorted_desc id (fetch_registry conn)
  /\ (reachable conn -> fetch_registry conn = rev (registry conn)).
Proof.
  split; [apply order_by_desc_perm|]. split; [apply order_by_desc_sorted|].
  intros Hr. destruct (reachable_ids conn Hr) as [Hi _].
  unfold fetch_registry. apply (order_by_desc_ascending id _ 1%nat Hi).
Qed.

Lemma X9_fetch_registry_order_witness :
  map id (fetch_registry conn_issued) = [2; 1].
Proof.
  destruct (X9_fetch_registry_order conn_issued) as (_ & _ & H).
  rewrite (H reachable_conn_issued). vm_compute. reflexivity.
Defined.

(** ** The issue handler: which record it takes, and how many are left *)

Lemma latest_max rows m :
  latest rows = Some m -> forall r, In r rows -> id r <= id m.
Proof.
  revert m. induction rows as [|x l IH]; simpl; intros m H r Hr; [contradiction|].
  destruct (latest l) as [m0|] eqn:E.
  - specialize (IH m0 eq_refl).
    destruct (id m0 <? id x) eqn:C; inversion H; subst.
    + apply Z.ltb_lt in C. destruct Hr as [<-|Hr]; [lia|]. specialize (IH r Hr). lia.
    + apply Z.ltb_ge in C. destruct Hr as [<-|Hr]; [lia|]. apply IH. exact Hr.
  - apply latest_none in E. subst l. inversion H; subst.
    destruct Hr as [<-|[]]. lia.
Qed.

Lemma unissued_verified_set tx i r :
  hash_set (Some tx) = true -> id r = i ->
  unissued_verified (set_tx_hash tx i r) = false.
Proof.
  intros Hs Ei. unfold set_tx_hash. apply Z.eqb_eq in Ei. rewrite Ei.
  unfold unissued_verified. cbn [mrv_status tx_hash]. unfold hash_set in Hs.
  apply negb_true_iff in Hs. rewrite Hs. apply andb_false_r.
Qed.

Lemma pending_after_update tx i l :
  hash_set (Some tx) = true ->
  NoDup (map id l) ->
  (exists r, In r l /\ id r = i /\ unissued_verified r = true) ->
  S (List.length (filter unissued_verified (map (set_tx_hash tx i) l)))
  = List.length (filter unissued_verified l).
Proof.
  intros Hs. induction l as [|x l IH]; intros Hnd (r & Hin & Ei & Hu); [contradiction|].
  inversion Hnd as [|? ? Hx Hl]; subst. simpl map. simpl filter.
  destruct (Z.eq_dec (id x) (id r)) as [E|E].
  - assert (r = x).
    { destruct Hin as [Hin|Hin]; [congruence|]. exfalso. apply Hx. rewrite E.
      apply in_map. exact Hin. }
    subst x. rewrite Hu. rewrite (unissued_verified_set tx (id r) r Hs eq_refl).
    assert (Em : map (set_tx_hash tx (id r)) l = l).
    { rewrite <- (map_id l) at 2. apply map_ext_in. intros y Hy.
      apply set_tx_hash_other. intros C. apply Hx. rewrite <- C. apply in_map. exact Hy. }
    rewrite Em. reflexivity.
  - rewrite (set_tx_hash_other tx (id r) x E).
    assert (Hin' : In r l) by (destruct Hin as [Hin|Hin]; [congruence|exact Hin]).
    specialize (IH Hl (ex_intro _ r (conj Hin' (conj eq_refl Hu)))).
    destruct (unissued_verified x); simpl; lia.
Qed.

Lemma select_latest_unissued_pending conn i u :
  select_latest_unissued conn = Some (i, u) ->
  exists r, In r (pending conn) /\ id r = i /\ record_uuid r = u
            /\ forall r', In r' (pending conn) -> id r' <= i.
Proof.
  unfold select_latest_unissued, pending.
  destruct (latest (filter unissued_verified (registry conn))) as [m|] eqn:E; [|discriminate].
  simpl. intros H. inversion H; subst. exists m. split; [apply latest_in; exact E|].
  split; [reflexivity|]. split; [reflexivity|]. apply latest_max. exact E.
Qed.

Lemma pending_step_issue conn env i u :
  wf_conn conn ->
  select_latest_unissued conn = Some (i, u) ->
  S (List.length (pending (step conn (IssueSimulatedTx env))))
  = List.length (pending conn).
Proof.
  intros [Hnd _] Hsel.
  destruct (step_issue_cases conn env) as [[E _]|(i' & u' & Hsel' & E)]; [congruence|].
  rewrite Hsel in Hsel'. inversion Hsel'; subst i' u'. rewrite E. unfold pending. simpl.
  apply pending_after_update; [apply hexdigest_hash_set | exact Hnd |].
  destruct (select_latest_unissued_pending conn i u Hsel) as (r & Hin & Ei & _ & _).
  unfold pending in Hin. apply filter_In in Hin. destruct Hin as [Hin Hu].
  exists r. auto.
Qed.

Lemma pending_drained envs : forall conn,
  wf_conn conn ->
  (List.length (pending conn) <= List.length envs)%nat ->
  pending (steps conn (map IssueSimulatedTx envs)) = [].
Proof.
  induction envs as [|env rest IH]; intros conn Hwf Hl.
  - change (steps conn (map IssueSimulatedTx [])) with conn.
    destruct (pending conn); [reflexivity | simpl in Hl; lia].
  - change (steps conn (map IssueSimulatedTx (env :: rest)))
      with (steps (step conn (IssueSimulatedTx env)) (map IssueSimulatedTx rest)).
    change (List.length (env :: rest)) with (S (List.length rest)) in Hl.
    apply IH; [apply wf_step; exact Hwf|].
    destruct (select_latest_unissued conn) as [[i u]|] eqn:Hsel.
    + pose proof (pending_step_issue conn env i u Hwf Hsel) as H0.
      apply le_S_n. rewrite H0. exact Hl.
    + destruct (step_issue_cases conn env) as [[_ E]|(i & u & Hsel' & _)]; [|congruence].
      rewrite E.
      pose proof (proj1 (select_latest_unissued_none conn) Hsel) as Hnone.
      assert (Hp : pending conn = []).
      { unfold pending. apply filter_nil_iff. intros r Hin.
        destruct (unissued_verified r) eqn:Hu; [|reflexivity]. exfalso.
        apply (Hnone r Hin). unfold unissued_verified in Hu.
        apply andb_true_iff in Hu. destruct Hu as [Hs Hh].
        apply String.eqb_eq in Hs. auto. }
      rewrite Hp. apply Nat.le_0_l.
Qed.

(** X10. In a store the application reaches, the issue handler takes the
    verified record without hash that has the largest id, and one press
    leaves exactly one such record fewer; after as many presses as there
    were such records, none is left. *)
Theorem X10_issue_most_recent (conn : Conn) :
  reachable conn ->
  (forall env i u,
     select_latest_unissued conn = Some (i, u) ->
     (forall r, In r (pending conn) -> id r <= i)
     /\ S (List.length (pending (step conn (IssueSimulatedTx env))))
        = List.length (pending conn))
  /\ (forall envs,
        (List.length (pending conn) <= List.length envs)%nat ->
        pending (steps conn (map IssueSimulatedTx envs)) = []).
Proof.
  intros Hr. pose proof (reachable_wf conn Hr) as Hwf. split.
  - intros env i u Hsel. split.
    + destruct (select_latest_unissued_pending conn i u Hsel) as (_ & _ & _ & _ & H).
      exact H.
    + apply (pending_step_issue conn env i u Hwf Hsel).
  - intros envs Hl. apply pending_drained; assumption.
Qed.

Lemma X10_issue_most_recent_witness :
  List.length (pending conn_demo) = 1%nat
  /\ pending (steps conn_demo (map IssueSimulatedTx [env_t2])) = [].
Proof.
  destruct (X10_issue_most_recent conn_demo reachable_conn_demo) as [H1 H2]. split.
  - destruct (H1 env_t2 1 (uuid4 env_t1)) as [_ H]; [vm_compute; reflexivity|].
    rewrite <- H. vm_compute. reflexivity.
  - apply H2. vm_compute. repeat constructor.
Defined.

(** ** What the handlers never change *)

Lemma without_hash_set_tx_hash tx i r : without_hash (set_tx_hash tx i r) = without_hash r.
Proof. unfold set_tx_hash. destruct (id r =? i); reflexivity. Qed.

Lemma step_append_only conn a :
  exists more,
    map without_hash (registry (step conn a)) = map without_hash (registry conn) ++ more
    /\ (List.length more <= 1)%nat.
Proof.
  destruct a as [env p f|env].
  - destruct (step_verify_cases conn env p f) as [E|(dt & n & s & m & E)]; rewrite E.
    + exists []. rewrite app_nil_r. split; [reflexivity|simpl; lia].
    + eexists [_]. unfold with_row. simpl. rewrite map_app. split; [reflexivity|simpl; lia].
  - destruct (step_issue_cases conn env) as [[_ E]|(i & u & _ & E)]; rewrite E.
    + exists []. rewrite app_nil_r. split; [reflexivity|simpl; lia].
    + exists []. simpl. rewrite app_nil_r, map_map. split; [|simpl; lia].
      apply map_ext. intros r. apply without_hash_set_tx_hash.
Qed.

(** X11. The table is append-only and every field but the ledger hash is
    frozen: after any sequence of actions the rows that were there are still
    there, in place and unchanged up to their hash, followed by at most one
    new row per action. *)
Theorem X11_append_only (conn : Conn) (actions : list Action) :
  exists more,
    map without_hash (registry (steps conn actions))
    = map without_hash (registry conn) ++ more
    /\ (List.length more <= List.length actions)%nat.
Proof.
  revert conn. induction actions as [|a rest IH]; intros conn; simpl.
  - exists []. rewrite app_nil_r. split; [reflexivity|simpl; lia].
  - destruct (IH (step conn a)) as (m2 & E2 & L2).
    destruct (step_append_only conn a) as (m1 & E1 & L1).
    exists (m1 ++ m2). rewrite E2, E1, <- app_assoc. split; [reflexivity|].
    rewrite length_app. lia.
Qed.

(** ** Runs of the upload handler that end early *)



(** ** The tabular estimator on validated input *)




Lemma credits_iot_ge1 df n : calculate_credits_iot df = Some n -> 1 <= n.
Proof.
  unfold calculate_credits_iot. destruct (value df) as [col|]; [|discriminate].
  destruct (py_int _) as [k|]; [|discriminate]. intros H. inversion H. lia.
Qed.




(** ** Quantities in the table *)

Lemma row_consistent_set_tx_hash tx i r :
  row_consistent r -> row_consistent (set_tx_hash tx i r).
Proof.
  unfold row_consistent, set_tx_hash. destruct (id r =? i); simpl; auto.
Qed.

Lemma row_consistent_step conn a :
  (forall r, In r (registry conn) -> row_consistent r) ->
  forall r, In r (registry (step conn a)) -> row_consistent r.
Proof.
  intros Hinv r. destruct a as [env p f|env].
  - unfold step, run, final_state.
    destruct (verify_run_total env p conn f); cbn [fst snd]; try (apply Hinv);
      unfold with_row; cbn [registry]; intros Hin; apply in_app_or in Hin;
      (destruct Hin as [Hin|[<-|[]]]; [apply Hinv; exact Hin|]);
      unfold row_consistent, new_row; cbn [mrv_status credits data_type].
    + split; [left; split; [reflexivity|eapply credits_iot_ge1; eassumption] | left; reflexivity].
    + split; [right; split; reflexivity | left; reflexivity].
    + split; [left; split; [reflexivity|rewrite credits_image_quot; lia] | right; reflexivity].
    + split; [right; split; reflexivity | right; reflexivity].
  - destruct (step_issue_cases conn env) as [[_ E]|(i & u & _ & E)]; rewrite E.
    + apply Hinv.
    + cbn [registry]. intros Hin. apply in_map_iff in Hin.
      destruct Hin as (r0 & <- & Hin). apply row_consistent_set_tx_hash.
      apply Hinv. exact Hin.
Qed.

(** X14. In every store the application reaches, each row is either
    verified with at least 1 credit or rejected with 0 credits, so no
    quantity is negative, and its kind is [iot_csv] or [image]. *)
Theorem X14_quantities (conn : Conn) :
  reachable conn ->
  forall r, In r (registry conn) -> row_consistent r /\ 0 <= credits r.
Proof.
  intros Hr.
  assert (H : forall r, In r (registry conn) -> row_consistent r).
  { induction Hr as [|conn a Hr IH]; [intros r []|].
    apply row_consistent_step. exact IH. }
  intros r Hin. specialize (H r Hin). split; [exact H|].
  destruct H as [[[_ Hc]|[_ Hc]] _]; lia.
Qed.

Lemma X14_quantities_witness : row_consistent row_issued /\ 0 <= credits row_issued.
Proof.
  apply (X14_quantities conn_issued reachable_conn_issued).
  vm_compute. left. reflexivity.
Defined.

(* ===================================================================== *)
(** * Further properties of the record store of [app1.py] *)
(* ===================================================================== *)

(** ** The three inserts *)

Lemma fresh_true_existsb {A} (p : A -> bool) l : negb (existsb p l) = true -> existsb p l = false.
Proof. apply negb_true_iff. Qed.

Lemma add_project_ok env name location description conn :
  fresh_project conn env = true ->
  App1.add_project env name location description conn
  = (Done (uuid4 env, App1.simulate_tx_hash (uuid4 env ++ utcnow env)),
     with_project conn (new_project conn env name location description),
     [App1.Call_add_project; App1.Call_simulate_tx_hash (uuid4 env ++ utcnow env)]).
Proof.
  intros F. apply fresh_true_existsb in F.
  rewrite (app1_add_project env name location description conn F). reflexivity.
Qed.

Lemma add_project_dup env name location description conn :
  fresh_project conn env = false ->
  App1.add_project env name location description conn
  = (Raised, conn,
     [App1.Call_add_project; App1.Call_simulate_tx_hash (uuid4 env ++ utcnow env)]).
Proof.
  intros F. apply negb_false_iff in F. run_app1. rewrite F. reflexivity.
Qed.

Lemma add_credit_ok str_float env project_id data_type c status notes conn :
  fresh_credit conn env = true ->
  App1.add_credit str_float env project_id data_type c status notes conn
  = (Done (uuid4 env, App1.simulate_tx_hash (uuid4 env ++ str_float c ++ utcnow env)),
     with_credit conn (new_credit str_float conn env project_id data_type c status notes),
     [App1.Call_add_credit status;
      App1.Call_simulate_tx_hash (uuid4 env ++ str_float c ++ utcnow env)]).
Proof.
  intros F. apply fresh_true_existsb in F.
  rewrite (app1_add_credit str_float env project_id data_type c status notes conn F).
  reflexivity.
Qed.

Lemma add_credit_dup str_float env project_id data_type c status notes conn :
  fresh_credit conn env = false ->
  App1.add_credit str_float env project_id data_type c status notes conn
  = (Raised, conn,
     [App1.Call_add_credit status;
      App1.Call_simulate_tx_hash (uuid4 env ++ str_float c ++ utcnow env)]).
Proof.
  intros F. apply negb_false_iff in F. run_app1. rewrite F. reflexivity.
Qed.

Lemma add_complaint_ok env project_id complaint conn :
  fresh_complaint conn env = true ->
  App1.add_complaint env project_id complaint conn
  = (Done (uuid4 env, App1.simulate_tx_hash (uuid4 env ++ complaint ++ utcnow env)),
     with_complaint conn (new_complaint conn env project_id complaint),
     [App1.Call_add_complaint;
      App1.Call_simulate_tx_hash (uuid4 env ++ complaint ++ utcnow env)]).
Proof.
  intros F. apply fresh_true_existsb in F.
  rewrite (app1_add_complaint env project_id complaint conn F). reflexivity.
Qed.

Lemma add_complaint_dup env project_id complaint conn :
  fresh_complaint conn env = false ->
  App1.add_complaint env project_id complaint conn
  = (Raised, conn,
     [App1.Call_add_complaint;
      App1.Call_simulate_tx_hash (uuid4 env ++ complaint ++ utcnow env)]).
Proof.
  intros F. apply negb_false_iff in F. run_app1. rewrite F. reflexivity.
Qed.

Lemma find_snoc_fresh {A} (p : A -> bool) l x :
  existsb p l = false -> p x = true -> find p (l ++ [x]) = Some x.
Proof.
  induction l as [|y l IH]; simpl; intros E Hx.
  - rewrite Hx. reflexivity.
  - apply orb_false_iff in E. destruct E as [Ey El]. rewrite Ey. apply IH; assumption.
Qed.

Lemma find_snoc_other {A} (p : A -> bool) l x :
  p x = false -> find p (l ++ [x]) = find p l.
Proof.
  intros Hx. induction l as [|y l IH]; simpl.
  - rewrite Hx. reflexivity.
  - destruct (p y); [reflexivity|exact IH].
Qed.

(** X15. Insert and lookup: when the new uuid is not yet in the table,
    each of the three inserts returns the uuid and the hash of the row it
    wrote, a lookup by that uuid returns exactly that row, and a lookup by
    any other uuid returns what it returned before. *)
Theorem X15_insert_then_lookup :
  (forall env name location description conn,
     fresh_project conn env = true ->
     let out := App1.add_project env name location description conn in
     let row := new_project conn env name location description in
     result out = Done (App1.p_uuid row, App1.simulate_tx_hash (uuid4 env ++ utcnow env))
     /\ App1.p_tx_hash row = Some (App1.simulate_tx_hash (uuid4 env ++ utcnow env))
     /\ select_project_by_uuid (final_state out) (uuid4 env) = Some row
     /\ forall uid, uid <> uuid4 env ->
          select_project_by_uuid (final_state out) uid = select_project_by_uuid conn uid)
  /\ (forall str_float env project_id data_type c status notes conn,
        fresh_credit conn env = true ->
        let out := App1.add_credit str_float env project_id data_type c status notes conn in
        let row := new_credit str_float conn env project_id data_type c status notes in
        result out
        = Done (App1.c_uuid row,
                App1.simulate_tx_hash (uuid4 env ++ str_float c ++ utcnow env))
        /\ App1.c_credits row = c
        /\ select_credit_by_uuid (final_state out) (uuid4 env) = Some row
        /\ forall uid, uid <> uuid4 env ->
             select_credit_by_uuid (final_state out) uid = select_credit_by_uuid conn uid)
  /\ (forall env project_id complaint conn,
        fresh_complaint conn env = true ->
        let out := App1.add_complaint env project_id complaint conn in
        let row := new_complaint conn env project_id complaint in
        result out
        = Done (App1.m_uuid row,
                App1.simulate_tx_hash (uuid4 env ++ complaint ++ utcnow env))
        /\ App1.m_complaint row = complaint
        /\ App1.m_status row = "pending"
        /\ select_complaint_by_uuid (final_state out) (uuid4 env) = Some row
        /\ forall uid, uid <> uuid4 env ->
             select_complaint_by_uuid (final_state out) uid
             = select_complaint_by_uuid conn uid).
Proof.
  split; [|split].
  - intros env name location description conn F out row. subst out row.
    rewrite (add_project_ok env name location description conn F).
    unfold result, final_state, select_project_by_uuid, with_project. cbn [fst snd App1.projects].
    split; [reflexivity|]. split; [reflexivity|]. split.
    + apply find_snoc_fresh; [apply fresh_true_existsb; exact F|].
      apply String.eqb_refl.
    + intros uid Hu. apply find_snoc_other. apply String.eqb_neq. cbn. congruence.
  - intros str_float env project_id data_type c status notes conn F out row. subst out row.
    rewrite (add_credit_ok str_float env project_id data_type c status notes conn F).
    unfold result, final_state, select_credit_by_uuid, with_credit. cbn [fst snd App1.credits].
    split; [reflexivity|]. split; [reflexivity|]. split.
    + apply find_snoc_fresh; [apply fresh_true_existsb; exact F|].
      apply String.eqb_refl.
    + intros uid Hu. apply find_snoc_other. apply String.eqb_neq. cbn. congruence.
  - intros env project_id complaint conn F out row. subst out row.
    rewrite (add_complaint_ok env project_id complaint conn F).
    unfold result, final_state, select_complaint_by_uuid, with_complaint.
    cbn [fst snd App1.complaints].
    split; [reflexivity|]. split; [reflexivity|]. split; [reflexivity|]. split.
    + apply find_snoc_fresh; [apply fresh_true_existsb; exact F|].
      apply String.eqb_refl.
    + intros uid Hu. apply find_snoc_other. apply String.eqb_neq. cbn. congruence.
Qed.

Lemma X15_insert_then_lookup_witness :
  option_map App1.p_name
    (select_project_by_uuid
       (final_state (App1.add_project env_t2 "Test Project" "0,0" "desc" conn1_demo))
       (uuid4 env_t2))
  = Some "Test Project".
Proof.
  destruct X15_insert_then_lookup as (H & _ & _).
  destruct (H env_t2 "Test Project" "0,0" "desc" conn1_demo) as (_ & _ & E & _).
  - vm_compute. reflexivity.
  - rewrite E. reflexivity.
Defined.



(** ** The pages of [app1.py] *)

Lemma order_by_desc_cons {A} (key : A -> Z) x l : order_by_desc key (x :: l) <> [].
Proof. unfold order_by_desc. simpl. apply insert_desc_not_nil. Qed.

(** What one run of the page script does to the store. *)
Lemma step1_cases str_float conn env page :
  step1 str_float conn (env, page) = conn
  \/ (exists name location desc,
        page = App1.ProjectRegistry name location desc true
        /\ fresh_project conn env = true
        /\ step1 str_float conn (env, page)
           = with_project conn (new_project conn env name location desc))
  \/ (exists selected img,
        page = App1.UploadDataVerify selected (Some (Some img))
        /\ fresh_credit conn env = true
        /\ step1 str_float conn (env, page)
           = with_credit conn
               (new_credit str_float conn env selected "image"
                  (fst (calculate_carbon_credits img)) "verified"
                  (MsgVariance (snd (calculate_carbon_credits img)))))
  \/ (exists selected text,
        page = App1.ComplaintRegistry selected text true
        /\ fresh_complaint conn env = true
        /\ step1 str_float conn (env, page)
           = with_complaint conn (new_complaint conn env selected text)).
Proof.
  destruct page as [name location desc submit|selected uploaded_file| |selected text submit].
  - destruct (andb submit (App1.nonempty name)) eqn:Es.
    + apply andb_true_iff in Es. destruct Es as [-> En].
      destruct (fresh_project conn env) eqn:F.
      * right. left. exists name, location, desc. split; [reflexivity|].
        split; [reflexivity|].
        unfold step1, App1.run_streamlit_app. cbn [fst snd]. rewrite En. cbn [andb].
        run_page. rewrite (add_project_ok env name location desc conn F). reflexivity.
      * left.
        unfold step1, App1.run_streamlit_app. cbn [fst snd]. rewrite En. cbn [andb].
        run_page. rewrite (add_project_dup env name location desc conn F). reflexivity.
    + left. unfold step1, App1.run_streamlit_app. cbn [fst snd]. rewrite Es.
      reflexivity.
  - destruct (App1.projects conn) as [|p0 ps] eqn:Ep.
    { left. run_page. rewrite Ep. reflexivity. }
    destruct uploaded_file as [[img|]|].
    + destruct (fresh_credit conn env) eqn:F.
      * right. right. left. exists selected, img. split; [reflexivity|].
        split; [reflexivity|]. unfold step1, final_state. cbn [fst snd].
        assert (Hp : App1.projects conn <> []) by (rewrite Ep; discriminate).
        rewrite (app1_upload_run str_float env selected img conn Hp
                   (fresh_true_existsb _ _ F)).
        reflexivity.
      * left. run_page. rewrite Ep.
        destruct (order_by_desc App1.p_id (p0 :: ps)) eqn:Eo;
          [exfalso; eapply order_by_desc_cons; exact Eo|].
        destruct (calculate_carbon_credits img) as [c v].
        rewrite (add_credit_dup str_float env selected "image" c "verified" _ conn F).
        reflexivity.
    + left. run_page. rewrite Ep.
      destruct (order_by_desc App1.p_id (p0 :: ps)) eqn:Eo; reflexivity.
    + left. run_page. rewrite Ep.
      destruct (order_by_desc App1.p_id (p0 :: ps)) eqn:Eo; reflexivity.
  - left. run_page. destruct (order_by_desc App1.c_id (App1.credits conn)); reflexivity.
  - destruct (App1.projects conn) as [|p0 ps] eqn:Ep.
    { left. run_page. rewrite Ep. cbn.
      destruct (order_by_desc App1.m_id (App1.complaints conn)); reflexivity. }
    destruct (andb submit (App1.nonempty text)) eqn:Es.
    + apply andb_true_iff in Es. destruct Es as [-> En].
      destruct (fresh_complaint conn env) eqn:F.
      * right. right. right. exists selected, text. split; [reflexivity|].
        split; [reflexivity|]. run_page. rewrite Ep.
        destruct (order_by_desc App1.p_id (p0 :: ps)) eqn:Eo;
          [exfalso; eapply order_by_desc_cons; exact Eo|].
        rewrite En. cbn [andb].
        rewrite (add_complaint_ok env selected text conn F).
        destruct (order_by_desc App1.m_id _); reflexivity.
      * left. run_page. rewrite Ep.
        destruct (order_by_desc App1.p_id (p0 :: ps)) eqn:Eo;
          [exfalso; eapply order_by_desc_cons; exact Eo|].
        rewrite En. cbn [andb].
        rewrite (add_complaint_dup env selected text conn F). reflexivity.
    + left. run_page. rewrite Ep.
      destruct (order_by_desc App1.p_id (p0 :: ps)) eqn:Eo;
        [exfalso; eapply order_by_desc_cons; exact Eo|].
      rewrite Es.
      destruct (order_by_desc App1.m_id (App1.complaints conn)); reflexivity.
Qed.

Lemma ids_snoc {A} (key : A -> Z) (l : list A) (x : A) :
  map key l = map Z.of_nat (List.seq 1 (List.length l)) ->
  key x = Z.of_nat (List.length l) + 1 ->
  map key (l ++ [x]) = map Z.of_nat (List.seq 1 (List.length (l ++ [x]))).
Proof.
  intros Hl Hx. rewrite length_app, map_app. simpl.
  rewrite Nat.add_1_r, map_of_nat_seq_S, Hl, Hx. f_equal. f_equal. lia.
Qed.

Lemma uuids_snoc {A} (key : A -> string) (l : list A) (x : A) :
  NoDup (map key l) ->
  existsb (fun r => String.eqb (key r) (key x)) l = false ->
  NoDup (map key (l ++ [x])).
Proof.
  intros Hnd Hf. rewrite map_app. simpl. apply NoDup_snoc; [exact Hnd|].
  intros Hin. apply in_map_iff in Hin. destruct Hin as (r & E & Hr).
  assert (existsb (fun r => String.eqb (key r) (key x)) l = true).
  { apply existsb_exists. exists r. split; [exact Hr|]. apply String.eqb_eq. exact E. }
  congruence.
Qed.

Lemma is_digest_hexdigest seed : is_digest (Some (App1.simulate_tx_hash seed)).
Proof.
  exists (App1.simulate_tx_hash seed). split; [reflexivity|].
  split; [apply hexdigest_length | apply hexdigest_is_hex].
Qed.

Lemma in_snoc {A} (l : list A) (x y : A) : In y (l ++ [x]) -> In y l \/ y = x.
Proof.
  intros H. apply in_app_or in H. destruct H as [H|[H|[]]]; auto.
Qed.

Lemma store_ok_init : store_ok App1.init_db.
Proof.
  constructor; simpl; first [reflexivity | apply NoDup_nil | intros r []].
Qed.

Lemma store_ok_with_project conn env name location desc :
  store_ok conn -> fresh_project conn env = true ->
  store_ok (with_project conn (new_project conn env name location desc)).
Proof.
  intros H F. apply fresh_true_existsb in F. destruct H.
  constructor; unfold with_project; cbn [App1.projects App1.credits App1.complaints
    App1.seq_projects App1.seq_credits App1.seq_complaints]; try assumption.
  - apply ids_snoc; [assumption|]. unfold new_project. cbn [App1.p_id]. lia.
  - rewrite length_app. simpl. lia.
  - apply uuids_snoc; assumption.
  - intros r Hr. apply in_snoc in Hr. destruct Hr as [Hr| ->]; [auto|].
    apply is_digest_hexdigest.
Qed.

Lemma store_ok_with_credit str_float conn env selected c v :
  store_ok conn -> fresh_credit conn env = true ->
  store_ok (with_credit conn
              (new_credit str_float conn env selected "image" c "verified" (MsgVariance v))).
Proof.
  intros H F. apply fresh_true_existsb in F. destruct H.
  constructor; unfold with_credit; cbn [App1.projects App1.credits App1.complaints
    App1.seq_projects App1.seq_credits App1.seq_complaints]; try assumption.
  - apply ids_snoc; [assumption|]. unfold new_credit. cbn [App1.c_id]. lia.
  - rewrite length_app. simpl. lia.
  - apply uuids_snoc; assumption.
  - intros r Hr. apply in_snoc in Hr. destruct Hr as [Hr| ->]; [auto|].
    apply is_digest_hexdigest.
  - intros r Hr. apply in_snoc in Hr. destruct Hr as [Hr| ->]; [auto|].
    split; [reflexivity|]. split; [reflexivity|]. exists v. reflexivity.
Qed.

Lemma store_ok_with_complaint conn env selected text :
  store_ok conn -> fresh_complaint conn env = true ->
  store_ok (with_complaint conn (new_complaint conn env selected text)).
Proof.
  intros H F. apply fresh_true_existsb in F. destruct H.
  constructor; unfold with_complaint; cbn [App1.projects App1.credits App1.complaints
    App1.seq_projects App1.seq_credits App1.seq_complaints]; try assumption.
  - apply ids_snoc; [assumption|]. unfold new_complaint. cbn [App1.m_id]. lia.
  - rewrite length_app. simpl. lia.
  - apply uuids_snoc; assumption.
  - intros r Hr. apply in_snoc in Hr. destruct Hr as [Hr| ->]; [auto|].
    apply is_digest_hexdigest.
  - intros r Hr. apply in_snoc in Hr. destruct Hr as [Hr| ->]; [auto|]. reflexivity.
Qed.

(** X17. Every store that the pages of [app1.py] reach from an empty
    database keeps, in each table, the ids 1..n in insertion order with the
    counter at n, pairwise distinct uuids, and a 64-character hexadecimal
    ledger hash on every row; every credit record is a verified image
    record whose note is the variance, and every complaint is pending. *)
Theorem X17_store_invariants (str_float : float -> string) (conn : App1.Conn) :
  reachable1 str_float conn -> store_ok conn.
Proof.
  induction 1 as [|conn [env page] Hr IH]; [apply store_ok_init|].
  destruct (step1_cases str_float conn env page)
    as [E|[(n & l & d & _ & F & E)|[(s & img & _ & F & E)|(s & t & _ & F & E)]]];
    rewrite E.
  - exact IH.
  - apply store_ok_with_project; assumption.
  - apply store_ok_with_credit; assumption.
  - apply store_ok_with_complaint; assumption.
Qed.

Lemma X17_store_invariants_witness : store_ok conn1_demo.
Proof.
  apply (X17_store_invariants str_float_2dp).
  unfold conn1_demo.
  apply (reach1_step str_float_2dp App1.init_db
           (env_t1, App1.ProjectRegistry "Demo Mangrove" "10.0,20.0" "Demo project" true)).
  constructor.
Defined.

(** X18. On a store the pages reach from an empty database (where every
    row has its ledger hash, so that the listings can print it), a page run
    that submits nothing (no form submitted, an empty name or text, no file,
    no registered project, or the ledger page) ends normally and leaves the
    store as it was; and on any store, whatever a page does, it changes no
    table but its own: the project page leaves credits and complaints alone,
    the upload page projects and complaints, the complaint page projects and
    credits. *)
Theorem X18_pages_and_tables (str_float : float -> string) (env : Env)
    (page : App1.Page) (conn : App1.Conn) :
  let out := App1.run_streamlit_app str_float env page conn in
  (reachable1 str_float conn -> submits page conn = false ->
   result out = Done tt /\ final_state out = conn)
  /\ match page with
     | App1.ProjectRegistry _ _ _ _ =>
         App1.credits (final_state out) = App1.credits conn
         /\ App1.complaints (final_state out) = App1.complaints conn
     | App1.UploadDataVerify _ _ =>
         App1.projects (final_state out) = App1.projects conn
         /\ App1.complaints (final_state out) = App1.complaints conn
     | App1.CarbonCreditRegistry => final_state out = conn
     | App1.ComplaintRegistry _ _ _ =>
         App1.projects (final_state out) = App1.projects conn
         /\ App1.credits (final_state out) = App1.credits conn
     end.
Proof.
  intros out. split.
  - subst out. intros _ Hs. unfold result.
    destruct page as [name location desc submit|selected uploaded_file| |selected text submit];
      simpl in Hs.
    + unfold App1.run_streamlit_app. rewrite Hs. split; reflexivity.
    + run_page. destruct (App1.projects conn) as [|p0 ps] eqn:Ep.
      * split; reflexivity.
      * destruct uploaded_file; [discriminate|].
        destruct (order_by_desc App1.p_id (p0 :: ps)); split; reflexivity.
    + run_page. destruct (order_by_desc App1.c_id (App1.credits conn)); split; reflexivity.
    + run_page. destruct (App1.projects conn) as [|p0 ps] eqn:Ep.
      * cbn. destruct (order_by_desc App1.m_id (App1.complaints conn)); split; reflexivity.
      * destruct (order_by_desc App1.p_id (p0 :: ps)) eqn:Eo;
          [exfalso; eapply order_by_desc_cons; exact Eo|].
        rewrite Hs.
        destruct (order_by_desc App1.m_id (App1.complaints conn)); split; reflexivity.
  - change (final_state out) with (step1 str_float conn (env, page)).
    destruct (step1_cases str_float conn env page)
      as [E|[(n & l & d & Ep & _ & E)|[(s & img & Ep & _ & E)|(s & t & Ep & _ & E)]]];
      rewrite E; destruct page; try discriminate Ep; try (split; reflexivity);
      reflexivity.
Qed.

Lemma X18_pages_and_tables_witness :
  final_state (App1.run_streamlit_app str_float_2dp env_t2
                 (App1.ProjectRegistry "" "somewhere" "no name given" true) conn1_demo)
  = conn1_demo.
Proof.
  destruct (X18_pages_and_tables str_float_2dp env_t2
              (App1.ProjectRegistry "" "somewhere" "no name given" true) conn1_demo)
    as [H _].
  destruct H as [_ E]; [| reflexivity | exact E].
  unfold conn1_demo.
  apply (reach1_step str_float_2dp App1.init_db
           (env_t1, App1.ProjectRegistry "Demo Mangrove" "10.0,20.0" "Demo project" true)).
  constructor.
Defined.

Lemma step1_append_only str_float conn a :
  exists ps cs ms,
    App1.projects (step1 str_float conn a) = App1.projects conn ++ ps
    /\ App1.credits (step1 str_float conn a) = App1.credits conn ++ cs
    /\ App1.complaints (step1 str_float conn a) = App1.complaints conn ++ ms
    /\ (List.length ps + List.length cs + List.length ms <= 1)%nat.
Proof.
  destruct a as [env page].
  destruct (step1_cases str_float conn env page)
    as [E|[(n & l & d & _ & _ & E)|[(s & img & _ & _ & E)|(s & t & _ & _ & E)]]];
    rewrite E.
  - exists [], [], []. rewrite !app_nil_r. repeat split. simpl. lia.
  - eexists [_], [], []. unfold with_project. cbn. rewrite !app_nil_r. repeat split. lia.
  - eexists [], [_], []. unfold with_credit. cbn. rewrite !app_nil_r. repeat split. lia.
  - eexists [], [], [_]. unfold with_complaint. cbn. rewrite !app_nil_r. repeat split. lia.
Qed.

(** X19. The three tables of [app1.py] are append-only: after any
    sequence of page runs every row that was in a table is still there, in
    place and unchanged, ledger hash included, followed by at most one new
    row per run over the three tables together. *)
Theorem X19_app1_append_only (str_float : float -> string) (conn : App1.Conn)
    (actions : list (Env * App1.Page)) :
  let conn' := fold_left (step1 str_float) actions conn in
  exists ps cs ms,
    App1.projects conn' = App1.projects conn ++ ps
    /\ App1.credits conn' = App1.credits conn ++ cs
    /\ App1.complaints conn' = App1.complaints conn ++ ms
    /\ (List.length ps + List.length cs + List.length ms <= List.length actions)%nat.
Proof.
  revert conn. induction actions as [|a rest IH]; intros conn; cbn [fold_left].
  - exists [], [], []. rewrite !app_nil_r. repeat split. simpl. lia.
  - destruct (IH (step1 str_float conn a)) as (p2 & c2 & m2 & Ep2 & Ec2 & Em2 & L2).
    destruct (step1_append_only str_float conn a) as (p1 & c1 & m1 & Ep1 & Ec1 & Em1 & L1).
    exists (p1 ++ p2), (c1 ++ c2), (m1 ++ m2).
    cbv zeta in *. rewrite Ep2, Ec2, Em2, Ep1, Ec1, Em1, <- !app_assoc.
    repeat split. rewrite !length_app. simpl List.length. lia.
Qed.

(* ===================================================================== *)
(** * The tabular validator: what the verdict does not depend on *)
(* ===================================================================== *)



(** ** The order of the rows *)
















(** ** The unit of the readings *)

Section Rescaling.
Local Open Scope Q_scope.












End Rescaling.


